(** * Hall-Yarborough Z-factor calculator ([app.py])

    A shallow embedding of the numeric core of the Streamlit script:
    Sutton's pseudo-critical correlation, the Wichert-Aziz correction, the
    reduced properties, the Hall-Yarborough residual [fy] with the [Zfac]
    wrapper around scipy's [fsolve], and the pressure sweep with its
    highlighted row.

    Number model.  A Python [float] is read as a real number: arithmetic is
    exact, there is no rounding and no inf/nan among Python values.  What
    Python signals by an exception is kept: a division by zero raises
    [ZeroDivisionError], [0.0 ** w] with [w < 0] raises as well, and a power
    whose value is out of the range of the floats raises [OverflowError].
    (Python's other operations overflow to an infinity without an exception;
    there a real number stands for the result, so that a float whose
    reciprocal is an infinity, one below 2^-1024 in magnitude, is outside the
    model.)  A numpy [float64] (what [fsolve] hands to [fy] and returns)
    never raises: where IEEE arithmetic would give inf or nan the model gives
    [None].  Python [int]s are [Z].

    Beside that model, the module [B64] runs the parts of the script that
    need no library function (the pseudo-critical properties where [**]
    needs no C [pow], the sweep and the selection of the highlighted row) on
    the kernel's binary64 floats, the arithmetic CPython's [float] has: it
    decides what depends on the last bit of a result, and it shows on
    concrete inputs that the two models agree.

    The module [App] puts the core back into the script: the six text boxes
    with their checks, the button and its handler, as one run that records
    what the page shows, call by call, and ends normally or with an
    exception.  Python's [float(text)] is a parameter there, as [fsolve]
    is. *)

From Stdlib Require Import Reals Floats Lra Lia ZArith String List Bool Sorted.
From Stdlib Require Uint63.
Import ListNotations.
Open Scope R_scope.

#[local] Set Warnings "-inexact-float".

(** ** Python arithmetic *)

Module Py.

(** The exceptions the modelled statements can raise.  [ComplexResult] is
    not a Python exception: it marks [v ** w] with a negative base and a
    fractional exponent, where Python 3 returns a [complex], a value this
    real-number model does not follow any further. *)
Inductive exn : Type :=
| ZeroDivisionError
| IndexError
| OverflowError
| ValueError
| ComplexResult.

Inductive result (A : Type) : Type :=
| Ok (a : A)
| Raise (e : exn).
Arguments Ok {A} a.
Arguments Raise {A} e.

Definition bind {A B : Type} (m : result A) (k : A -> result B) : result B :=
  match m with
  | Ok a => k a
  | Raise e => Raise e
  end.

(** [a / b] on floats. *)
Definition truediv (a b : R) : result R :=
  if Req_dec_T b 0 then Raise ZeroDivisionError else Ok (a / b).

(** Is the float [w] an integer, and is it an odd one. *)
Definition is_integer (w : R) : bool :=
  if Req_dec_T (IZR (Zfloor w)) w then true else false.

Definition is_odd_integer (w : R) : bool :=
  is_integer w && Z.odd (Zfloor w).

(** The magnitude from which a power is out of the range of the floats:
    2^1024 - 2^970, the least real that rounds to an infinity.  C's [pow]
    reports a result of that size by [ERANGE]. *)
Definition overflow_threshold : R := IZR (2 ^ 1024 - 2 ^ 970).

Definition overflows (r : R) : bool :=
  if Rle_dec overflow_threshold (Rabs r) then true else false.

(** C's [pow] on a positive base other than 1, followed by the test of
    [errno] that CPython makes: a result out of range raises
    [OverflowError] (a result too small to be told from 0 raises nothing). *)
Definition c_pow (v w : R) : result R :=
  if overflows (Rpower v w) then Raise OverflowError else Ok (Rpower v w).

(** [v ** w] on floats, by the case analysis of CPython's [float_pow]:
    [v ** 0] is 1 (even for [v = 0]); [0 ** w] is 0 for positive [w] and an
    error for negative [w]; a negative base with a fractional exponent
    leaves the reals; a negative base with an integral exponent is the
    power of [-v], negated when the exponent is odd; [1 ** w] is 1; what
    remains, a positive base, goes to the C library's [pow], here [c_pow]. *)
Definition float_pow (v w : R) : result R :=
  if Req_dec_T w 0 then Ok 1
  else if Req_dec_T v 0 then
    (if Rlt_dec w 0 then Raise ZeroDivisionError else Ok 0)
  else if Rlt_dec v 0 then
    (if is_integer w
     then (if Req_dec_T (- v) 1
           then Ok (if is_odd_integer w then -1 else 1)
           else bind (c_pow (- v) w)
                  (fun r => Ok (if is_odd_integer w then - r else r)))
     else Raise ComplexResult)
  else if Req_dec_T v 1 then Ok 1
  else c_pow v w.

(** [int(x)]: truncation towards zero. *)
Definition int_of_float (x : R) : Z :=
  if Rle_dec 0 x then Zfloor x else Zceil x.

(** [range(start, stop, step)] for a positive [step]: [start],
    [start + step], ... as long as the value is below [stop]. *)
Definition range (start stop step : Z) : list Z :=
  map (fun i : nat => (start + Z.of_nat i * step)%Z)
      (seq 0 (Z.to_nat ((stop - start + step - 1) / step))).

(** An element of a list that holds floats and ints side by side. *)
Inductive num : Type :=
| Float (r : R)
| Int (z : Z).

(** The float a number is converted to (in a mixed division, or when the
    list becomes a float64 column). *)
Definition to_float (n : num) : R :=
  match n with
  | Float r => r
  | Int z => IZR z
  end.

End Py.

Import Py.

Declare Scope py_scope.
Delimit Scope py_scope with py.
Notation "x <- m ;; k" := (bind m (fun x => k))
  (at level 61, m at next level, right associativity) : py_scope.
Open Scope py_scope.

(** ** Sutton's correlation (script lines 119-121) *)

Definition Tpc (SG : R) : result R :=
  sq <- float_pow SG 2 ;;
  Ok (169.2 + 349.5 * SG - 74.0 * sq).

Definition Ppc (SG : R) : result R :=
  sq <- float_pow SG 2 ;;
  Ok (756.8 - 131.0 * SG - 3.6 * sq).

(** ** numpy arithmetic *)

Declare Scope np_scope.
Delimit Scope np_scope with np.

Module Np.

(** A float64 of numpy: [Some r] is the finite value [r], [None] stands for
    inf and nan alike.  An operation on a non-finite operand is taken to be
    non-finite again; the two ways IEEE arithmetic has of coming back from an
    infinity to a finite number (dividing by an infinity, raising one to a
    negative power) need a non-finite divisor or base, which [fy] cannot
    produce from a finite [y]. *)
Definition float64 : Type := option R.

(** A Python float that meets a numpy value in an operation. *)
Definition of_float (r : R) : float64 := Some r.
Arguments of_float r%_R.

Definition lift2 (op : R -> R -> R) (a b : float64) : float64 :=
  match a, b with
  | Some x, Some y => Some (op x y)
  | _, _ => None
  end.

Definition add : float64 -> float64 -> float64 := lift2 Rplus.
Definition subtract : float64 -> float64 -> float64 := lift2 Rminus.
Definition multiply : float64 -> float64 -> float64 := lift2 Rmult.

(** [a / b]: a zero divisor gives inf (or nan for [0 / 0]) and a warning,
    never an exception. *)
Definition divide (a b : float64) : float64 :=
  match a, b with
  | Some x, Some y => if Req_dec_T y 0 then None else Some (x / y)
  | _, _ => None
  end.

(** [a ** w] with a float exponent, C's [pow]: [0 ** w] is inf for negative
    [w]; a negative base with a fractional exponent is nan. *)
Definition power (a : float64) (w : R) : float64 :=
  match a with
  | None => None
  | Some v =>
      if Req_dec_T w 0 then Some 1
      else if Req_dec_T v 0 then (if Rlt_dec w 0 then None else Some 0)
      else if Rlt_dec v 0 then
        (if is_integer w
         then Some (if is_odd_integer w then - Rpower (- v) w else Rpower (- v) w)
         else None)
      else Some (Rpower v w)
  end.
Arguments power a%_np w%_R.

End Np.

Notation "a + b" := (Np.add a b) : np_scope.
Notation "a - b" := (Np.subtract a b) : np_scope.
Notation "a * b" := (Np.multiply a b) : np_scope.
Notation "a / b" := (Np.divide a b) : np_scope.
Notation "a ** w" := (Np.power a w) (at level 30, right associativity) : np_scope.

(** ** Wichert-Aziz correction (script lines 123-126) *)

Definition e (y_H2S_val y_CO2_val y_N2_val : R) : result R :=
  a <- float_pow (y_N2_val + y_CO2_val) 0.9 ;;
  b <- float_pow (y_N2_val + y_CO2_val) 1.6 ;;
  c <- float_pow y_H2S_val 0.5 ;;
  d <- float_pow y_H2S_val 4 ;;
  Ok (120 * (a - b) + 15 * (c - d)).

Definition Tpc_corr (Tpc e : R) : R := Tpc - e.

Definition Ppc_corr (Ppc Tpc Tpc_corr y_H2S_val : R) : result R :=
  truediv (Ppc * Tpc_corr)
          (Tpc + y_H2S_val * (1 - y_H2S_val) * (304.2 - Tpc_corr)).

(** Lines 124-126 as one step: the corrected pair. *)
Definition corrected (Tpc Ppc y_H2S_val y_CO2_val y_N2_val : R)
  : result (R * R) :=
  ev <- e y_H2S_val y_CO2_val y_N2_val ;;
  let tpc_corr := Tpc_corr Tpc ev in
  ppc_corr <- Ppc_corr Ppc Tpc tpc_corr y_H2S_val ;;
  Ok (tpc_corr, ppc_corr).

(** ** The Hall-Yarborough functions (script lines 128-140) *)

(** [fy] is only ever called by [fsolve], which passes [y] as a numpy array of
    one element: the operations on [y] are numpy's, those on the Python floats
    [alpha], [Ppr] and [t] are Python's, so that the two powers of [t] raise
    [OverflowError] when they are out of range. *)
Definition fy (y alpha Ppr t : R) : result Np.float64 :=
  t2 <- float_pow t 2 ;;
  t3 <- float_pow t 3 ;;
  let y := Np.of_float y in
  Ok (Np.of_float (- alpha * Ppr) +
      (y + y ** 2 + y ** 3 - y ** 4) / (Np.of_float 1 - y) ** 3 -
      Np.of_float (14.76 * t - 9.76 * t2 + 4.58 * t3) * y ** 2 +
      Np.of_float (90.7 * t - 242.2 * t2 + 42.4 * t3) * y ** (2.18 + 2.82 * t))%np.

(** What [fsolve(func, x0, args=...)] computes, as far as this script can
    see it: the array it returns (one element, [root]) and the status [ier]
    of MINPACK's hybrd, 1 when it converged.  Called as it is here, without
    [full_output], scipy turns the statuses 2 to 5 (budget of evaluations used
    up, tolerance too small, no good progress) into a warning and returns the
    last iterate all the same; the status never reaches the caller.  (Status
    0, improper input parameters, cannot come out of this call.) *)
Record solution : Type := { root : R; ier : Z }.

Definition solver : Type := (R -> result Np.float64) -> R -> solution.

(** ** The sweep and its table (script lines 172-198) *)

(** [pressures]: 14.7, then [range(200, int(P + 1000) + 1, 200)]. *)
Definition pressures (P : R) : list num :=
  [Float 14.7] ++ map Int (range 200 (int_of_float (P + 1000) + 1) 200).

(** A list comprehension whose body may raise. *)
Fixpoint comprehension {A B : Type} (f : A -> result B) (l : list A)
  : result (list B) :=
  match l with
  | [] => Ok []
  | a :: l' => b <- f a ;; bs <- comprehension f l' ;; Ok (b :: bs)
  end.

(** The data frame [df]: one row per sample, the columns
    ['Pressure (psi)'] (floats and ints become one float64 column) and
    ['Z-factor']. *)
Definition DataFrame : Type := list (R * Np.float64).

Definition data_frame (pressures : list num) (z_factors : list Np.float64)
  : DataFrame :=
  combine (map to_float pressures) z_factors.

(** [df[df['Pressure (psi)'] == P]]: the rows whose pressure equals [P]. *)
Definition highlight_point (df : DataFrame) (P : R) : DataFrame :=
  filter (fun row => if Req_dec_T (fst row) P then true else false) df.

(** [highlight_point['Z-factor'].values[0]]: the first selected Z, an
    [IndexError] when no row was selected. *)
Definition first_z_factor (highlight_point : DataFrame) : result Np.float64 :=
  match highlight_point with
  | [] => Raise IndexError
  | row :: _ => Ok (snd row)
  end.

(** What the handler shows: the Z-factor at the input pressure, the table,
    and the highlighted point with its label. *)
Record report : Type := {
  z_factor : Np.float64;
  df : DataFrame;
  highlighted : DataFrame;
  label : Np.float64
}.

(** Reduced properties (script lines 165-167). *)
Definition Pr (P Ppc_corr : R) : result R := truediv P Ppc_corr.
Definition Tr (T_rankine Tpc_corr : R) : result R := truediv T_rankine Tpc_corr.

Section Script.

(** scipy's [fsolve], a library, is a parameter of the development. *)
Variable fsolve : solver.

(** [fsolve] evaluates [func] at the initial guess before it starts the
    search, and an exception that [func] raises there leaves [fsolve] and
    [Zfac]; what [fy] raises does not depend on [y] (lemma [fy_raises]
    below), so it raises there or nowhere. *)
Definition Zfac (Tpr Ppr : R) : result Np.float64 :=
  t <- truediv 1 Tpr ;;
  sq <- float_pow (1 - t) 2 ;;
  let alpha := 0.06125 * t * exp (-1.2 * sq) in
  let y_initial := 0.001 in
  _ <- fy y_initial alpha Ppr t ;;
  let y := root (fsolve (fun y => fy y alpha Ppr t) y_initial) in
  Ok (Np.of_float (alpha * Ppr) / Np.of_float y)%np.

Definition z_factors (T_rankine Tpc_corr Ppc_corr : R) (pressures : list num)
  : result (list Np.float64) :=
  comprehension
    (fun p => Tpr <- truediv T_rankine Tpc_corr ;;
              Ppr <- truediv (to_float p) Ppc_corr ;;
              Zfac Tpr Ppr)
    pressures.

(** The [else] branch of the button handler, from the corrected
    pseudo-critical properties on. *)
Definition calculate (P T Tpc_corr Ppc_corr : R) : result report :=
  let T_rankine := T + 459.67 in
  pr <- Pr P Ppc_corr ;;
  tr <- Tr T_rankine Tpc_corr ;;
  z <- Zfac tr pr ;;
  let ps := pressures P in
  zs <- z_factors T_rankine Tpc_corr Ppc_corr ps ;;
  let table := data_frame ps zs in
  let hp := highlight_point table P in
  lab <- first_z_factor hp ;;
  Ok {| z_factor := z; df := table; highlighted := hp; label := lab |}.

(** One run of the script with the button pressed and the six inputs parsed
    and accepted. *)
Definition script (SG P T y_H2S_val y_CO2_val y_N2_val : R) : result report :=
  tpc <- Tpc SG ;;
  ppc <- Ppc SG ;;
  c <- corrected tpc ppc y_H2S_val y_CO2_val y_N2_val ;;
  calculate P T (fst c) (snd c).

End Script.

(** ** The formulas as the specification words them *)

Module Spec.

(** [x^p] for a base [x >= 0] and an exponent [p > 0]. *)
Definition power (x p : R) : R := if Req_dec_T x 0 then 0 else Rpower x p.

Definition e (yH2S yCO2 yN2 : R) : R :=
  120 * (power (yN2 + yCO2) 0.9 - power (yN2 + yCO2) 1.6)
  + 15 * (power yH2S 0.5 - yH2S ^ 4).

Definition TpcCorr (Tpc e : R) : R := Tpc - e.

Definition PpcCorr (Ppc Tpc TpcCorr yH2S : R) : R :=
  Ppc * TpcCorr / (Tpc + yH2S * (1 - yH2S) * (304.2 - TpcCorr)).

(** The sample pressures: 14.7, then every multiple of 200 from 200 up to
    and including the first multiple of 200 that is at least [P + 1000]. *)
Definition first_multiple_of_200_from (x : R) : Z := (200 * Zceil (x / 200))%Z.

Definition pressures (P : R) : list num :=
  Float 14.7 ::
  map Int (filter (fun z => (z mod 200 =? 0)%Z)
             (map (fun i : nat => (200 + Z.of_nat i)%Z)
                (seq 0 (Z.to_nat (first_multiple_of_200_from (P + 1000) - 199))))).

Definition t (Tpr : R) : R := 1 / Tpr.

Definition alpha (Tpr : R) : R :=
  0.06125 * t Tpr * exp (-1.2 * (1 - t Tpr) ^ 2).

(** The Hall-Yarborough residual on the physical branch [0 < y < 1]. *)
Definition f (alpha Ppr t y : R) : R :=
  - alpha * Ppr
  + (y + y ^ 2 + y ^ 3 - y ^ 4) / (1 - y) ^ 3
  - (14.76 * t - 9.76 * t ^ 2 + 4.58 * t ^ 3) * y ^ 2
  + (90.7 * t - 242.2 * t ^ 2 + 42.4 * t ^ 3) * Rpower y (2.18 + 2.82 * t).

End Spec.

(** The integers of the sweep up to a bound [n]: in increasing order, the
    multiples of 200 from 200 to [n]. *)
Definition multiples_of_200_upto (n : Z) (ms : list Z) : Prop :=
  StronglySorted Z.lt ms /\
  forall z : Z, In z ms <-> (200 <= z <= n /\ z mod 200 = 0)%Z.

(** ** The script in binary64 *)

Module B64.

(** How a run on binary64 floats ends.  [Unsettled]: the run reaches a power
    that CPython hands to C's [pow] (a base other than 0 and 1), or whose
    operand is a nan or an infinity; the binary64 operations of the kernel
    do not determine it. *)
Inductive run (A : Type) : Type :=
| Value (a : A)
| Raises (e : exn)
| Unsettled.
Arguments Value {A} a.
Arguments Raises {A} e.
Arguments Unsettled {A}.

Definition bind {A B : Type} (m : run A) (k : A -> run B) : run B :=
  match m with
  | Value a => k a
  | Raises e => Raises e
  | Unsettled => Unsettled
  end.

(** Is the finite float [w] an odd integer: with [w = m * 2^e], the exponent
    is 0 and [m] is odd, or the exponent is negative and [m / 2^-e] is a whole
    odd number. *)
Definition is_odd_integer (w : float) : bool :=
  match Prim2SF w with
  | S754_finite _ m e =>
      match e with
      | Z0 => Z.odd (Zpos m)
      | Zpos _ => false
      | Zneg k =>
          andb (Zpos m mod Z.pow_pos 2 k =? 0)%Z
               (Z.odd (Zpos m / Z.pow_pos 2 k))
      end
  | _ => false
  end.

(** [v ** w], the cases CPython's [float_pow] settles itself for finite
    operands: [v ** 0] is 1; [0 ** w] raises for a negative [w] and is a zero
    otherwise (that of [v] for an odd integer [w]); [1 ** w] is 1. *)
Definition float_pow (v w : float) : run float :=
  if (w =? 0)%float then Value 1%float
  else if (is_nan v || is_nan w || is_infinity v || is_infinity w)%bool
       then Unsettled
  else if (v =? 0)%float then
    (if (w <? 0)%float then Raises ZeroDivisionError
     else Value (if is_odd_integer w then v else 0%float))
  else if (v =? 1)%float then Value 1%float
  else Unsettled.

Definition truediv (a b : float) : run float :=
  if (b =? 0)%float then Raises ZeroDivisionError else Value (a / b)%float.

Definition Tpc (SG : float) : run float :=
  bind (float_pow SG 2) (fun sq =>
  Value (169.2 + 349.5 * SG - 74.0 * sq)%float).

Definition Ppc (SG : float) : run float :=
  bind (float_pow SG 2) (fun sq =>
  Value (756.8 - 131.0 * SG - 3.6 * sq)%float).

Definition e (y_H2S_val y_CO2_val y_N2_val : float) : run float :=
  bind (float_pow (y_N2_val + y_CO2_val) 0.9) (fun a =>
  bind (float_pow (y_N2_val + y_CO2_val) 1.6) (fun b =>
  bind (float_pow y_H2S_val 0.5) (fun c =>
  bind (float_pow y_H2S_val 4) (fun d =>
  Value (120 * (a - b) + 15 * (c - d))%float)))).

Definition Tpc_corr (Tpc e : float) : float := (Tpc - e)%float.

Definition Ppc_corr (Ppc Tpc Tpc_corr y_H2S_val : float) : run float :=
  truediv (Ppc * Tpc_corr)
          (Tpc + y_H2S_val * (1 - y_H2S_val) * (304.2 - Tpc_corr))%float.

(** Lines 120-126 for the gravity [SG] and the three fractions: the
    uncorrected and the corrected pair. *)
Definition pseudo_critical (SG y_H2S_val y_CO2_val y_N2_val : float)
  : run ((float * float) * (float * float)) :=
  bind (Tpc SG) (fun tpc =>
  bind (Ppc SG) (fun ppc =>
  bind (e y_H2S_val y_CO2_val y_N2_val) (fun ev =>
  let tpc_corr := Tpc_corr tpc ev in
  bind (Ppc_corr ppc tpc tpc_corr y_H2S_val) (fun ppc_corr =>
  Value ((tpc, ppc), (tpc_corr, ppc_corr)))))).

(** A list element, a float or an int. *)
Inductive num : Type :=
| Float (f : float)
| Int (z : Z).

(** [int(x)]: the finite float [x = (-1)^s * m * 2^e] cut towards zero; an
    infinity and a nan raise. *)
Definition int_of_float (x : float) : run Z :=
  match Prim2SF x with
  | S754_zero _ => Value 0%Z
  | S754_finite s m e =>
      let magnitude :=
        match e with
        | Z0 => Zpos m
        | Zpos k => (Zpos m * Z.pow_pos 2 k)%Z
        | Zneg k => (Zpos m / Z.pow_pos 2 k)%Z
        end in
      Value (if s then (- magnitude)%Z else magnitude)
  | S754_infinity _ => Raises OverflowError
  | S754_nan => Raises ValueError
  end.

(** The float of an int (exact below 2^53, which covers every sample). *)
Definition of_int (z : Z) : float :=
  if (z <? 0)%Z then (- of_uint63 (Uint63.of_Z (- z)))%float
  else of_uint63 (Uint63.of_Z z).

Definition to_float (n : num) : float :=
  match n with
  | Float f => f
  | Int z => of_int z
  end.

Definition pressures (P : float) : run (list num) :=
  bind (int_of_float (P + 1000)%float) (fun n =>
  Value ([Float 14.7%float] ++ map Int (range 200 (n + 1) 200))).

Definition DataFrame : Type := list (float * float).

Definition data_frame (pressures : list num) (z_factors : list float)
  : DataFrame :=
  combine (map to_float pressures) z_factors.

Definition highlight_point (df : DataFrame) (P : float) : DataFrame :=
  filter (fun row => (fst row =? P)%float) df.

Definition first_z_factor (highlight_point : DataFrame) : run float :=
  match highlight_point with
  | [] => Raises IndexError
  | row :: _ => Value (snd row)
  end.

(** Lines 173, 179, 188 and 195 for given Z-factors: the sweep, the table,
    the selection, and the Z-factor that labels the highlighted point. *)
Definition highlighted_label (P : float) (z_factors : list float) : run float :=
  bind (pressures P) (fun ps =>
  first_z_factor (highlight_point (data_frame ps z_factors) P)).

End B64.

(** ** Two behaviours a root finder can show *)

(** The search uses up its budget of function evaluations: status 2, and the
    iterate [y] it had reached is handed back. *)
Definition exhausted_at (y : R) : solver :=
  fun _ _ => {| root := y; ier := 2 |}.

(** The search reports convergence (status 1) at the point [y]. *)
Definition converged_at (y : R) : solver :=
  fun _ _ => {| root := y; ier := 1 |}.

(** The reduced pressure at which [y] is a zero of the residual for the
    reduced temperature [Tpr]: the residual without its pressure term,
    divided by alpha. *)
Definition Ppr_with_root_at (Tpr y : R) : R :=
  Spec.f 0 0 (Spec.t Tpr) y / Spec.alpha Tpr.

(** ** Where the powers are in range *)

(** The values of [t] at which the two powers of [fy], [t ** 2] and
    [t ** 3], are in range. *)
Definition fy_in_range (t : R) : Prop :=
  Rabs (t ^ 2) < overflow_threshold /\ Rabs (t ^ 3) < overflow_threshold.

(** The reduced temperatures at which [Zfac] gets as far as its division:
    the reciprocal of line 136 is defined, and the square of line 137 and
    the powers of [fy] are in range. *)
Definition Zfac_in_range (Tpr : R) : Prop :=
  Tpr <> 0 /\ Rabs ((1 - 1 / Tpr) ^ 2) < overflow_threshold /\
  fy_in_range (1 / Tpr).

(** ** The whole script: text boxes, checks, button (script lines 27-200) *)

Module App.

(** What a statement of the script can raise: what the numeric core raises,
    and the [TypeError] of an arithmetic operator that meets a [str] or
    [None]. *)
Inductive error : Type :=
| TypeError
| Raised (e : exn).

Inductive outcome (A : Type) : Type :=
| Returns (a : A)
| Throws (e : error).
Arguments Returns {A} a.
Arguments Throws {A} e.

(** What the page shows, call by call.  The two messages about the sum of the
    fractions carry the number that the script formats with two decimals;
    the three displays of the handler carry what they display. *)
Inductive message : Type :=
| Error (text : string)
| Warning (text : string)
| Write (text : string)
| ErrorSum (total_mole_frac : R)
| WriteSum (total_mole_frac : R)
| WriteZ (z_factor : Np.float64)
| Table (df : DataFrame)
| Chart (df highlight_point : DataFrame) (label : Np.float64).

(** A run of statements: what was shown so far, and how the run ended. *)
Definition ui (A : Type) : Type := list message * outcome A.

Definition shown {A : Type} (m : ui A) : list message := fst m.

Definition ending {A : Type} (m : ui A) : outcome A := snd m.

Definition ret {A : Type} (a : A) : ui A := ([], Returns a).

Definition say (m : message) : ui unit := ([m], Returns tt).

Definition throw {A : Type} (e : error) : ui A := ([], Throws e).

Definition then_ {A B : Type} (m : ui A) (k : A -> ui B) : ui B :=
  match snd m with
  | Returns a => (fst m ++ fst (k a), snd (k a))
  | Throws e => (fst m, Throws e)
  end.

(** A statement of the numeric core, which shows nothing. *)
Definition core {A : Type} (r : result A) : ui A :=
  match r with
  | Ok a => ret a
  | Raise e => throw (Raised e)
  end.

(** The value of a variable that a text box feeds: the text itself, the
    float it was converted to, or [None]. *)
Inductive value : Type :=
| Str (s : string)
| Num (x : R)
| NoneValue.

(** Truth value of a text: it is not empty. *)
Definition nonempty (s : string) : bool := negb (String.eqb s EmptyString).

Definition is_None (v : value) : bool :=
  match v with
  | NoneValue => true
  | _ => false
  end.

(** The texts of the six boxes and the state of the button. *)
Record inputs : Type := {
  SG_text : string;
  P_text : string;
  T_text : string;
  y_H2S : string;
  y_CO2 : string;
  y_N2 : string;
  button : bool
}.

(** A message of the checks: an error, one of the two fixed lines, or the
    line about the sum of the fractions. *)
Definition check_message (m : message) : Prop :=
  (exists t, m = Error t) \/ (exists t, m = Write t) \/
  (exists x, m = ErrorSum x) \/ (exists x, m = WriteSum x).

(** A message of the results branch. *)
Definition result_message (m : message) : Prop :=
  (exists z, m = WriteZ z) \/ (exists t, m = Table t) \/
  (exists t h l, m = Chart t h l).

(** The pressures that are a sample of their own sweep: 14.7 and the
    multiples of 200. *)
Definition sample_pressure (P : R) : Prop :=
  P = 14.7 \/ exists z : Z, P = IZR z /\ (200 <= z)%Z /\ (z mod 200 = 0)%Z.

Definition between (a x b : R) : bool :=
  if Rle_dec a x then (if Rle_dec x b then true else false) else false.

Definition below (x a : R) : bool := if Rlt_dec x a then true else false.

End App.

Import App.

Declare Scope ui_scope.
Delimit Scope ui_scope with ui.
Notation "x <~ m ;; k" := (then_ m (fun x => k))
  (at level 61, m at next level, right associativity) : ui_scope.
Notation "m ;;; k" := (then_ m (fun _ => k))
  (at level 61, right associativity) : ui_scope.
Open Scope ui_scope.

Section Page.

(** Python's [float(text)], [None] for a [ValueError]: a parameter.  Its
    values are real numbers; a text that Python reads as nan or as an infinity
    is outside this model. *)
Variable float_of_text : string -> option R.

Variable fsolve : solver.

(** A text that a check accepts as the number [x]: it is not empty, it is
    the number [x], and [x] meets the condition of the check. *)
Definition accepted (accepts : R -> Prop) (text : string) (x : R) : Prop :=
  text <> EmptyString /\ float_of_text text = Some x /\ accepts x.

(** A text that a check refuses: it is not empty, and it is no number or a
    number that fails the condition. *)
Definition refused (accepts : R -> Prop) (text : string) : Prop :=
  text <> EmptyString /\
  (float_of_text text = None \/
   exists x, float_of_text text = Some x /\ ~ accepts x).

(** The value a check leaves for a text: the empty text itself, [None] for a
    text it refuses, the number for a text it accepts. *)
Definition checked (accepts : R -> Prop) (text : string) (v : value) : Prop :=
  (v = Str EmptyString /\ text = EmptyString) \/
  (v = NoneValue /\ refused accepts text) \/
  (exists x, v = Num x /\ accepted accepts text x).

(** The value a fraction check leaves for a text: the number typed when it
    lies in [0, 1], and 0 for the empty text and for a text it refuses. *)
Definition counted (text : string) (v : R) : Prop :=
  accepted (fun x => 0 <= x <= 1) text v \/
  (v = 0 /\ (text = EmptyString \/ refused (fun x => 0 <= x <= 1) text)).

(** Lines 31-43. *)
Definition gravity (SG : string) : ui value :=
  if nonempty SG then
    match float_of_text SG with
    | Some x =>
        if negb (between 0.55 x 1.0)
        then say (Error "Gas Gravity must be between 0.55 and 1.0") ;;;
             ret NoneValue
        else ret (Num x)
    | None =>
        say (Error "Please enter a valid number for Gas Gravity") ;;;
        ret NoneValue
    end
  else ret (Str SG).

(** Lines 46 and 50-58. *)
Definition pressure (P : string) : ui value :=
  if nonempty P then
    match float_of_text P with
    | Some x =>
        if below x 14.7
        then say (Error "Pressure must be equal to or above pressure at standard conditions (14.7 psi).") ;;;
             ret NoneValue
        else ret (Num x)
    | None =>
        say (Error "Please enter a valid number for Pressure.") ;;;
        ret NoneValue
    end
  else ret (Str P).

(** Lines 47 and 61-69. *)
Definition temperature (T : string) : ui value :=
  if nonempty T then
    match float_of_text T with
    | Some x =>
        if below x 60
        then say (Error "Temperature must be equal to or above temperature at standard conditions (60 deg F).") ;;;
             ret NoneValue
        else ret (Num x)
    | None =>
        say (Error "Please enter a valid number for Temperature.") ;;;
        ret NoneValue
    end
  else ret (Str T).

(** Lines 72-108, one of the three blocks: the value starts at 0 and is
    replaced by the number typed when that number lies in [0, 1]. *)
Definition fraction (gas y : string) : ui R :=
  if nonempty y then
    match float_of_text y with
    | Some x =>
        if negb (between 0 x 1)
        then say (Error (gas ++ " content must be between 0 and 1")) ;;;
             ret 0
        else ret x
    | None =>
        say (Error ("Please enter a valid number for " ++ gas ++ " content")) ;;;
        ret 0
    end
  else ret 0.

(** Lines 110-115. *)
Definition mole_fraction_sum (y_H2S_val y_CO2_val y_N2_val : R) : ui unit :=
  let total_mole_frac := y_H2S_val + y_CO2_val + y_N2_val in
  if below 1 total_mole_frac
  then say (ErrorSum total_mole_frac)
  else say (WriteSum total_mole_frac).

(** Lines 119-126 on the variable [SG] as the checks left it: the first
    product, [349.5 * SG], raises [TypeError] on a text and on [None]. *)
Definition pseudo_critical (SG : value) (y_H2S_val y_CO2_val y_N2_val : R)
  : ui (R * R) :=
  match SG with
  | Num x =>
      core (tpc <- Tpc x ;;
            ppc <- Ppc x ;;
            corrected tpc ppc y_H2S_val y_CO2_val y_N2_val)%py
  | _ => throw TypeError
  end.

(** Lines 145-157. *)
Definition missing_inputs (SG P T : value) (y_H2S y_CO2 y_N2 : string)
  : list string :=
  (if is_None SG then ["Gas Gravity"%string] else []) ++
  (if is_None P then ["Pressure"%string] else []) ++
  (if is_None T then ["Temperature"%string] else []) ++
  (if nonempty y_H2S then [] else ["H2S content"%string]) ++
  (if nonempty y_CO2 then [] else ["CO2 content"%string]) ++
  (if nonempty y_N2 then [] else ["N2 content"%string]).

(** Lines 162-200, on the variables [P] and [T] as the checks left them: a
    text in [T + 459.67] or in [P / Ppc_corr] raises [TypeError]. *)
Definition show_results (P T : value) (Tpc_corr Ppc_corr : R) : ui unit :=
  match T with
  | Num t =>
      let T_rankine := t + 459.67 in
      match P with
      | Num p =>
          pr <~ core (Pr p Ppc_corr) ;;
          tr <~ core (Tr T_rankine Tpc_corr) ;;
          z <~ core (Zfac fsolve tr pr) ;;
          say (WriteZ z) ;;;
          let ps := pressures p in
          zs <~ core (z_factors fsolve T_rankine Tpc_corr Ppc_corr ps) ;;
          let table := data_frame ps zs in
          say (Table table) ;;;
          let hp := highlight_point table p in
          lab <~ core (first_z_factor hp) ;;
          say (Chart table hp lab)
      | _ => throw TypeError
      end
  | _ => throw TypeError
  end.

(** Lines 143-200. *)
Definition handler (SG P T : value) (y_H2S y_CO2 y_N2 : string)
    (Tpc_corr Ppc_corr : R) : ui unit :=
  match missing_inputs SG P T y_H2S y_CO2 y_N2 with
  | [] => show_results P T Tpc_corr Ppc_corr
  | missing =>
      say (Warning ("Please provide values for: " ++ String.concat ", " missing))
  end.

(** Lines 117-200: what runs once the six checks are done. *)
Definition after_checks (i : inputs) (SG P T : value)
    (y_H2S_val y_CO2_val y_N2_val : R) : ui unit :=
  pc <~ pseudo_critical SG y_H2S_val y_CO2_val y_N2_val ;;
  if button i
  then handler SG P T (y_H2S i) (y_CO2 i) (y_N2 i) (fst pc) (snd pc)
  else ret tt.

(** One run of the script, top to bottom (the title block of lines 8-25, a
    fixed piece of HTML, is left out of what is shown). *)
Definition main (i : inputs) : ui unit :=
  say (Write "Calculate Z-factor using Hall-Yarborough method") ;;;
  say (Write "Note: Acceptable Range for Gas Gravity is 0.55 - 1.0") ;;;
  SG <~ gravity (SG_text i) ;;
  P <~ pressure (P_text i) ;;
  T <~ temperature (T_text i) ;;
  y_H2S_val <~ fraction "H2S" (y_H2S i) ;;
  y_CO2_val <~ fraction "CO2" (y_CO2 i) ;;
  y_N2_val <~ fraction "N2" (y_N2 i) ;;
  mole_fraction_sum y_H2S_val y_CO2_val y_N2_val ;;;
  after_checks i SG P T y_H2S_val y_CO2_val y_N2_val.

End Page.

(** The value Python's [float] gives a few texts, for runs on concrete
    inputs. *)
Definition float_of_sample_text (s : string) : option R :=
  if String.eqb s "0.75" then Some 0.75
  else if String.eqb s "1500" then Some 1500
  else if String.eqb s "1400" then Some 1400
  else if String.eqb s "150" then Some 150
  else if String.eqb s "0.1" then Some 0.1
  else if String.eqb s "0.6" then Some 0.6
  else if String.eqb s "0" then Some 0
  else if String.eqb s "2" then Some 2
  else None.

(** Lines 52-55 on binary64: the pressure is kept unless [P < 14.7]. *)
Definition pressure_kept (P : float) : bool := negb (P <? 14.7)%float.

(** * Properties *)

(** One step of a computation in the [result] monad: rewrite with the
    equation of the statement that runs next, then pass its value on. *)
Ltac run_with E := rewrite E; cbn [bind].

(** ** Python arithmetic *)

Lemma truediv_ok (a b : R) : b <> 0 -> truediv a b = Ok (a / b).
Proof.
  intros H. unfold truediv.
  destruct (Req_dec_T b 0); [contradiction | reflexivity].
Qed.

Lemma truediv_zero (a : R) : truediv a 0 = Raise ZeroDivisionError.
Proof. unfold truediv. destruct (Req_dec_T 0 0); [reflexivity | lra]. Qed.

Lemma div_nonzero (a b : R) : a <> 0 -> b <> 0 -> a / b <> 0.
Proof.
  intros Ha Hb. unfold Rdiv.
  apply Rmult_integral_contrapositive_currified;
    [assumption | now apply Rinv_neq_0_compat].
Qed.

Lemma is_integer_IZR (z : Z) : is_integer (IZR z) = true.
Proof.
  unfold is_integer. rewrite ZfloorZ.
  destruct (Req_dec_T (IZR z) (IZR z)); congruence.
Qed.

Lemma is_odd_integer_IZR (z : Z) : is_odd_integer (IZR z) = Z.odd z.
Proof. unfold is_odd_integer. now rewrite is_integer_IZR, ZfloorZ. Qed.

Lemma pow_opp_parity (x : R) (n : nat) :
  (- x) ^ n = if Z.odd (Z.of_nat n) then - x ^ n else x ^ n.
Proof.
  induction n as [|n IH]; [reflexivity|].
  rewrite Nat2Z.inj_succ, Z.odd_succ, <- Z.negb_odd.
  simpl pow. rewrite IH.
  destruct (Z.odd (Z.of_nat n)); simpl; ring.
Qed.

Lemma Rpower_1_base (p : R) : Rpower 1 p = 1.
Proof. unfold Rpower. rewrite ln_1, Rmult_0_r. apply exp_0. Qed.

Lemma Rpower_positive_exponent (x : R) (p : positive) :
  0 < x -> Rpower x (IZR (Z.pos p)) = x ^ Pos.to_nat p.
Proof.
  intros Hx. rewrite <- Rpower_pow by assumption.
  now rewrite INR_IZR_INZ, positive_nat_Z.
Qed.

(** The powers that are in range: what is below the threshold. *)
Lemma below_threshold (z : Z) :
  (z < 2 ^ 1024 - 2 ^ 970)%Z -> IZR z < overflow_threshold.
Proof. intros H. unfold overflow_threshold. now apply IZR_lt. Qed.

Lemma overflows_false (r : R) :
  Rabs r < overflow_threshold -> overflows r = false.
Proof.
  intros H. unfold overflows.
  destruct (Rle_dec overflow_threshold (Rabs r)); [lra | reflexivity].
Qed.

Lemma overflows_true (r : R) :
  overflow_threshold <= Rabs r -> overflows r = true.
Proof.
  intros H. unfold overflows.
  destruct (Rle_dec overflow_threshold (Rabs r)); [reflexivity | contradiction].
Qed.

Lemma overflows_small (r : R) : Rabs r <= 1000 -> overflows r = false.
Proof.
  intros H. apply overflows_false.
  pose proof (below_threshold 1000 eq_refl). lra.
Qed.

(** [v ** n] with a positive integer [n] is the [n]-fold product, whatever
    the sign of [v], and raises [OverflowError] when that product is out of
    range. *)
Lemma float_pow_integer (v : R) (p : positive) :
  float_pow v (IZR (Z.pos p)) =
  if overflows (v ^ Pos.to_nat p) then Raise OverflowError
  else Ok (v ^ Pos.to_nat p).
Proof.
  assert (Hp : 0 < IZR (Z.pos p)) by (apply IZR_lt; lia).
  assert (H1 : overflows 1 = false)
    by (apply overflows_small; rewrite Rabs_R1; lra).
  unfold float_pow.
  destruct (Req_dec_T (IZR (Z.pos p)) 0) as [E|_]; [lra|].
  destruct (Req_dec_T v 0) as [->|Hv0].
  - destruct (Rlt_dec (IZR (Z.pos p)) 0); [lra|].
    rewrite pow_i by lia.
    now rewrite overflows_small by (rewrite Rabs_R0; lra).
  - destruct (Rlt_dec v 0) as [Hneg|Hpos].
    + rewrite is_integer_IZR, is_odd_integer_IZR.
      assert (Hv : v ^ Pos.to_nat p =
                   if Z.odd (Z.pos p)
                   then - (- v) ^ Pos.to_nat p else (- v) ^ Pos.to_nat p).
      { rewrite pow_opp_parity, positive_nat_Z.
        destruct (Z.odd (Z.pos p)); ring. }
      assert (Ho : overflows (v ^ Pos.to_nat p)
                   = overflows ((- v) ^ Pos.to_nat p)).
      { unfold overflows. rewrite Hv.
        destruct (Z.odd (Z.pos p)); [now rewrite Rabs_Ropp | reflexivity]. }
      rewrite Ho.
      destruct (Req_dec_T (- v) 1) as [E1|_].
      * rewrite Hv, E1, pow1, H1. reflexivity.
      * unfold c_pow. rewrite Rpower_positive_exponent by lra.
        destruct (overflows ((- v) ^ Pos.to_nat p)); cbn [bind];
          [reflexivity | now rewrite Hv].
    + destruct (Req_dec_T v 1) as [->|_].
      * now rewrite pow1, H1.
      * unfold c_pow. rewrite Rpower_positive_exponent by lra. reflexivity.
Qed.

Lemma float_pow_positive_integer (v : R) (p : positive) :
  Rabs (v ^ Pos.to_nat p) < overflow_threshold ->
  float_pow v (IZR (Z.pos p)) = Ok (v ^ Pos.to_nat p).
Proof.
  intros H. now rewrite float_pow_integer, overflows_false.
Qed.

Lemma float_pow_overflow (v : R) (p : positive) :
  overflow_threshold <= Rabs (v ^ Pos.to_nat p) ->
  float_pow v (IZR (Z.pos p)) = Raise OverflowError.
Proof.
  intros H. now rewrite float_pow_integer, overflows_true.
Qed.

(** A power with a positive integer exponent either has a value or raises
    [OverflowError]. *)
Lemma float_pow_integer_cases (v : R) (p : positive) :
  (float_pow v (IZR (Z.pos p)) = Ok (v ^ Pos.to_nat p) /\
   Rabs (v ^ Pos.to_nat p) < overflow_threshold) \/
  (float_pow v (IZR (Z.pos p)) = Raise OverflowError /\
   overflow_threshold <= Rabs (v ^ Pos.to_nat p)).
Proof.
  destruct (Rlt_dec (Rabs (v ^ Pos.to_nat p)) overflow_threshold) as [H|H].
  - left. split; [now apply float_pow_positive_integer | assumption].
  - right. split; [apply float_pow_overflow; lra | lra].
Qed.

Lemma float_pow_square (v : R) : -1000 <= v <= 1000 -> float_pow v 2 = Ok (v ^ 2).
Proof.
  intros Hv. apply (float_pow_positive_integer v 2).
  change (Pos.to_nat 2) with 2%nat.
  rewrite Rabs_pos_eq by apply pow2_ge_0.
  pose proof (below_threshold 1000000 eq_refl). nra.
Qed.

(** On a base [x >= 0] and an exponent [p > 0], [x ** p] is the power of the
    specification when that power is in range. *)
Lemma float_pow_nonneg (x p : R) :
  0 <= x -> 0 < p -> Spec.power x p < overflow_threshold ->
  float_pow x p = Ok (Spec.power x p).
Proof.
  intros Hx Hp. unfold float_pow, Spec.power.
  destruct (Req_dec_T p 0); [lra|].
  destruct (Req_dec_T x 0) as [->|Hx0].
  - destruct (Rlt_dec p 0); [lra | reflexivity].
  - intros Hr. destruct (Rlt_dec x 0); [lra|].
    destruct (Req_dec_T x 1) as [->|_]; [now rewrite Rpower_1_base|].
    unfold c_pow. rewrite overflows_false; [reflexivity|].
    rewrite Rabs_pos_eq; [assumption|]. unfold Rpower. left. apply exp_pos.
Qed.

Lemma int_of_float_nonneg (x : R) : 0 <= x -> int_of_float x = Zfloor x.
Proof.
  intros H. unfold int_of_float.
  destruct (Rle_dec 0 x); [reflexivity | contradiction].
Qed.

Lemma int_of_float_IZR (z : Z) : int_of_float (IZR z) = z.
Proof.
  unfold int_of_float. destruct (Rle_dec 0 (IZR z)).
  - apply ZfloorZ.
  - unfold Zceil. rewrite <- opp_IZR, ZfloorZ. lia.
Qed.

(** [range] holds the values from [start] below [stop] that are a whole
    number of steps away from [start], in increasing order. *)
Lemma in_range (a b s z : Z) :
  (0 < s)%Z ->
  In z (range a b s) <-> (a <= z < b /\ (z - a) mod s = 0)%Z.
Proof.
  intros Hs. unfold range. rewrite in_map_iff. split.
  - intros (i & <- & Hi). apply in_seq in Hi.
    assert (Hd : (s * ((b - a + s - 1) / s) <= b - a + s - 1)%Z)
      by (apply Z.mul_div_le; lia).
    assert (Hi' : (Z.of_nat i < (b - a + s - 1) / s)%Z) by lia.
    split; [nia|].
    replace (a + Z.of_nat i * s - a)%Z with (Z.of_nat i * s)%Z by ring.
    apply Z.mod_mul; lia.
  - intros ([Hlo Hhi] & Hm).
    apply Z.mod_divide in Hm; [|lia]. destruct Hm as [k Hk].
    assert (Hk0 : (0 <= k)%Z) by nia.
    exists (Z.to_nat k). split; [rewrite Z2Nat.id by lia; lia|].
    apply in_seq. split; [lia|]. simpl.
    assert (Hq : (k + 1 <= (b - a + s - 1) / s)%Z)
      by (apply Z.div_le_lower_bound; nia).
    lia.
Qed.

Lemma affine_seq_sorted (a s : Z) (n i : nat) :
  (0 < s)%Z ->
  StronglySorted Z.lt (map (fun i : nat => (a + Z.of_nat i * s)%Z) (seq i n)).
Proof.
  intros Hs. revert i. induction n as [|n IH]; intros i; simpl.
  - constructor.
  - constructor; [apply IH|].
    apply Forall_forall. intros z Hz.
    apply in_map_iff in Hz. destruct Hz as (j & <- & Hj).
    apply in_seq in Hj. nia.
Qed.

Lemma range_sorted (a b s : Z) :
  (0 < s)%Z -> StronglySorted Z.lt (range a b s).
Proof. intros Hs. now apply affine_seq_sorted. Qed.

Lemma comprehension_ok {A B : Type} (f : A -> result B) (l : list A) :
  (forall a, In a l -> exists b, f a = Ok b) ->
  exists bs, comprehension f l = Ok bs /\ length bs = length l.
Proof.
  induction l as [|a l IH]; intros H.
  - exists []. now split.
  - destruct (H a (or_introl eq_refl)) as [b Hb].
    destruct IH as (bs & Hbs & Hlen); [intros a' Ha'; apply H; now right|].
    exists (b :: bs). simpl. run_with Hb. run_with Hbs.
    split; [reflexivity | simpl; now rewrite Hlen].
Qed.

(** ** numpy arithmetic *)

Lemma np_divide_ok (a b : R) :
  b <> 0 -> Np.divide (Some a) (Some b) = Some (a / b).
Proof.
  intros H. simpl. destruct (Req_dec_T b 0); [contradiction | reflexivity].
Qed.

Lemma np_divide_zero_divisor (a : R) : Np.divide (Some a) (Some 0) = None.
Proof. simpl. destruct (Req_dec_T 0 0); [reflexivity | lra]. Qed.

Lemma np_power_positive_integer (v : R) (p : positive) :
  Np.power (Some v) (IZR (Z.pos p)) = Some (v ^ Pos.to_nat p).
Proof.
  assert (Hp : 0 < IZR (Z.pos p)) by (apply IZR_lt; lia).
  unfold Np.power.
  destruct (Req_dec_T (IZR (Z.pos p)) 0) as [E|_]; [lra|].
  destruct (Req_dec_T v 0) as [->|Hv0].
  - destruct (Rlt_dec (IZR (Z.pos p)) 0); [lra|].
    rewrite pow_i; [reflexivity | lia].
  - destruct (Rlt_dec v 0) as [Hneg|Hpos].
    + rewrite is_integer_IZR, is_odd_integer_IZR.
      rewrite Rpower_positive_exponent by lra.
      rewrite pow_opp_parity, positive_nat_Z.
      destruct (Z.odd (Z.pos p)); f_equal; ring.
    + rewrite Rpower_positive_exponent by lra. reflexivity.
Qed.

Lemma np_power_positive_base (v w : R) :
  0 < v -> Np.power (Some v) w = Some (Rpower v w).
Proof.
  intros Hv. unfold Np.power.
  destruct (Req_dec_T w 0) as [->|_].
  - now rewrite Rpower_O.
  - destruct (Req_dec_T v 0); [lra|].
    destruct (Rlt_dec v 0); [lra | reflexivity].
Qed.

(** ** The power of the specification *)

Lemma power_nonneg (x p : R) : 0 <= Spec.power x p.
Proof.
  unfold Spec.power. destruct (Req_dec_T x 0); [lra|].
  unfold Rpower. left. apply exp_pos.
Qed.

Lemma power_zero_base (p : R) : Spec.power 0 p = 0.
Proof. unfold Spec.power. destruct (Req_dec_T 0 0); [reflexivity | lra]. Qed.

Lemma power_positive_integer (x : R) (p : positive) :
  0 <= x -> Spec.power x (IZR (Z.pos p)) = x ^ Pos.to_nat p.
Proof.
  intros Hx. unfold Spec.power.
  destruct (Req_dec_T x 0) as [->|Hx0].
  - rewrite pow_i; [reflexivity | lia].
  - apply Rpower_positive_exponent. lra.
Qed.

(** On [0, 1] a larger exponent gives a smaller power. *)
Lemma power_antitone (x a b : R) :
  0 <= x <= 1 -> a <= b -> Spec.power x b <= Spec.power x a.
Proof.
  intros [Hx0 Hx1] Hab. unfold Spec.power.
  destruct (Req_dec_T x 0); [lra|].
  assert (Hln : ln x <= 0).
  { destruct (Req_dec_T x 1) as [->|Hne]; [rewrite ln_1; lra|].
    left. rewrite <- ln_1. apply ln_increasing; lra. }
  unfold Rpower.
  destruct (Req_dec_T (b * ln x) (a * ln x)) as [->|Hne]; [lra|].
  left. apply exp_increasing. nra.
Qed.

(** From 1 on a larger exponent gives a larger power. *)
Lemma power_monotone (x a b : R) :
  1 <= x -> a <= b -> Spec.power x a <= Spec.power x b.
Proof.
  intros Hx Hab. unfold Spec.power.
  destruct (Req_dec_T x 0); [lra|]. now apply Rle_Rpower.
Qed.

Lemma power_le_1 (x p : R) : 0 <= x <= 1 -> 0 <= p -> Spec.power x p <= 1.
Proof.
  intros [H0 H1] Hp. unfold Spec.power.
  destruct (Req_dec_T x 0); [lra|].
  rewrite <- (Rpower_1_base p). apply Rle_Rpower_l; lra.
Qed.

(** ** Sutton's correlation *)

Lemma Tpc_formula (SG : R) :
  -1000 <= SG <= 1000 -> Tpc SG = Ok (169.2 + 349.5 * SG - 74.0 * SG ^ 2).
Proof. intros H. unfold Tpc. run_with float_pow_square; [reflexivity | exact H]. Qed.

Lemma Ppc_formula (SG : R) :
  -1000 <= SG <= 1000 -> Ppc SG = Ok (756.8 - 131.0 * SG - 3.6 * SG ^ 2).
Proof. intros H. unfold Ppc. run_with float_pow_square; [reflexivity | exact H]. Qed.

Lemma sutton_bounds (SG : R) :
  0.55 <= SG <= 1 ->
  339 <= 169.2 + 349.5 * SG - 74.0 * SG ^ 2 <= 445 /\
  622 <= 756.8 - 131.0 * SG - 3.6 * SG ^ 2 <= 684.
Proof. intros H. nra. Qed.

Lemma sutton_at_075 : Tpc 0.75 = Ok 389.7 /\ Ppc 0.75 = Ok 656.525.
Proof. rewrite Tpc_formula, Ppc_formula by lra. split; f_equal; lra. Qed.

(** C9.  For every gravity in [0.55, 1.0] both correlations return a value
    (they raise nothing), and the values are those of Sutton's formulas:
    Tpc = 169.2 + 349.5 SG - 74.0 SG^2 and Ppc = 756.8 - 131.0 SG - 3.6 SG^2. *)
Theorem sutton_total (SG : R) :
  0.55 <= SG <= 1.0 ->
  Tpc SG = Ok (169.2 + 349.5 * SG - 74.0 * SG ^ 2) /\
  Ppc SG = Ok (756.8 - 131.0 * SG - 3.6 * SG ^ 2).
Proof. intros H. split; [apply Tpc_formula | apply Ppc_formula]; lra. Qed.

Lemma sutton_total_witness :
  0.55 <= 0.6 <= 1.0 /\
  Tpc 0.6 = Ok (169.2 + 349.5 * 0.6 - 74.0 * 0.6 ^ 2) /\
  Ppc 0.6 = Ok (756.8 - 131.0 * 0.6 - 3.6 * 0.6 ^ 2).
Proof.
  assert (H : 0.55 <= 0.6 <= 1.0) by lra.
  split; [exact H | exact (sutton_total 0.6 H)].
Defined.

(** C5, as the specification has it, fails: at SG = 0.75 the correlation is
    more than 3 degrees Rankine away from 386.0 and more than 1 psi away from
    654.6. *)
Lemma sutton_075_is_not_386_and_654 :
  exists tpc ppc : R,
    Tpc 0.75 = Ok tpc /\ Ppc 0.75 = Ok ppc /\
    3 < Rabs (tpc - 386.0) /\ 1 < Rabs (ppc - 654.6).
Proof.
  exists 389.7, 656.525. destruct sutton_at_075 as [-> ->].
  repeat split; rewrite Rabs_pos_eq; lra.
Qed.

(** C5 (amended).  For SG = 0.75 the correlation returns Tpc = 389.7 degrees
    Rankine and Ppc = 656.525 psi, the exact values of the formulas
    169.2 + 349.5 SG - 74.0 SG^2 and 756.8 - 131.0 SG - 3.6 SG^2. *)
Theorem sutton_at_SG_075 :
  Tpc 0.75 = Ok 389.7 /\ Ppc 0.75 = Ok 656.525 /\
  389.7 = 169.2 + 349.5 * 0.75 - 74.0 * 0.75 ^ 2 /\
  656.525 = 756.8 - 131.0 * 0.75 - 3.6 * 0.75 ^ 2.
Proof.
  destruct sutton_at_075 as [HT HP]. repeat split; try assumption; lra.
Qed.

(** ** The Wichert-Aziz correction *)

(** A power of a base of [0, 2] with an exponent of (0, 2] is at most 4. *)
Lemma power_small (x p : R) :
  0 <= x <= 2 -> 0 < p <= 2 -> Spec.power x p < overflow_threshold.
Proof.
  intros Hx Hp.
  pose proof (below_threshold 4 eq_refl) as H4.
  destruct (Rle_dec x 1) as [Hle|Hgt].
  - pose proof (power_le_1 x p ltac:(lra) ltac:(lra)). lra.
  - pose proof (power_monotone x p 2 ltac:(lra) ltac:(lra)) as H.
    rewrite (power_positive_integer x 2) in H by lra.
    change (Pos.to_nat 2) with 2%nat in H. nra.
Qed.

Lemma e_formula (yH2S yCO2 yN2 : R) :
  0 <= yH2S <= 1 -> 0 <= yN2 + yCO2 <= 2 ->
  e yH2S yCO2 yN2 = Ok (Spec.e yH2S yCO2 yN2).
Proof.
  intros Hh Hx. unfold e, Spec.e.
  run_with (float_pow_nonneg (yN2 + yCO2) 0.9);
    [|lra | lra | apply power_small; lra].
  run_with (float_pow_nonneg (yN2 + yCO2) 1.6);
    [|lra | lra | apply power_small; lra].
  run_with (float_pow_nonneg yH2S 0.5);
    [|lra | lra | apply power_small; lra].
  run_with (float_pow_positive_integer yH2S 4); [reflexivity|].
  change (Pos.to_nat 4) with 4%nat.
  rewrite Rabs_pos_eq by (apply pow_le; lra).
  pose proof (below_threshold 1 eq_refl).
  assert (yH2S ^ 4 <= 1) by (rewrite <- (pow1 4); apply pow_incr; lra).
  lra.
Qed.

Lemma e_zero : e 0 0 0 = Ok 0.
Proof.
  rewrite e_formula by lra. unfold Spec.e.
  replace (0 + 0) with 0 by ring. rewrite !power_zero_base. f_equal. ring.
Qed.

(** With valid fractions whose sum stays within 1 the correction term is not
    negative. *)
Lemma e_nonneg (yH2S yCO2 yN2 : R) :
  0 <= yH2S <= 1 -> 0 <= yN2 + yCO2 <= 1 -> 0 <= Spec.e yH2S yCO2 yN2.
Proof.
  intros Hh Hx. unfold Spec.e.
  assert (H1 := power_antitone (yN2 + yCO2) 0.9 1.6 Hx ltac:(lra)).
  assert (H2 := power_antitone yH2S 0.5 4 Hh ltac:(lra)).
  rewrite (power_positive_integer yH2S 4) in H2 by lra.
  change (Pos.to_nat 4) with 4%nat in H2.
  lra.
Qed.

(** With each fraction in [0, 1], whatever their sum, the correction term
    stays between -480 and 135. *)
Lemma e_bounds (h c n : R) :
  0 <= h <= 1 -> 0 <= c <= 1 -> 0 <= n <= 1 ->
  -480 <= Spec.e h c n <= 135.
Proof.
  intros Hh Hc Hn. unfold Spec.e.
  set (x := n + c).
  assert (Hx : 0 <= x <= 2) by (unfold x; lra).
  assert (Hc1 : 0 <= Spec.power h 0.5 <= 1)
    by (split; [apply power_nonneg | apply power_le_1; lra]).
  assert (Hd : 0 <= h ^ 4 <= Spec.power h 0.5).
  { split; [apply pow_le; lra|].
    change (h ^ 4) with (h ^ Pos.to_nat 4).
    rewrite <- (power_positive_integer h 4) by lra.
    apply power_antitone; lra. }
  assert (Ha : 0 <= Spec.power x 0.9) by apply power_nonneg.
  assert (Hb : 0 <= Spec.power x 1.6) by apply power_nonneg.
  destruct (Rle_dec x 1) as [Hle|Hgt].
  - assert (Spec.power x 0.9 <= 1) by (apply power_le_1; lra).
    assert (Spec.power x 1.6 <= 1) by (apply power_le_1; lra).
    lra.
  - assert (H1 : Spec.power x 0.9 <= Spec.power x 1.6)
      by (apply power_monotone; lra).
    assert (H2 : Spec.power x 1.6 <= Spec.power x 2)
      by (apply power_monotone; lra).
    rewrite (power_positive_integer x 2) in H2 by lra.
    change (Pos.to_nat 2) with 2%nat in H2.
    assert (x ^ 2 <= 4) by nra.
    lra.
Qed.

(** The corrected pair, whenever the divisor of line 126 is not zero. *)
Lemma corrected_value (Tpc Ppc y_H2S y_CO2 y_N2 ev : R) :
  e y_H2S y_CO2 y_N2 = Ok ev ->
  Tpc + y_H2S * (1 - y_H2S) * (304.2 - (Tpc - ev)) <> 0 ->
  corrected Tpc Ppc y_H2S y_CO2 y_N2 =
  Ok (Tpc - ev,
      Ppc * (Tpc - ev) / (Tpc + y_H2S * (1 - y_H2S) * (304.2 - (Tpc - ev)))).
Proof.
  intros He Hd. unfold corrected. run_with He.
  unfold Ppc_corr, Tpc_corr. now run_with truediv_ok.
Qed.

Lemma correction_divisor_positive (Tpc ev h : R) :
  0 < Tpc -> 0 <= ev -> 0 <= h <= 1 ->
  0 < Tpc + h * (1 - h) * (304.2 - (Tpc - ev)).
Proof.
  intros HT He Hh.
  set (m := h * (1 - h)).
  assert (H1 : 0 <= m) by (unfold m; nra).
  assert (H2 : m <= 1 / 4)
    by (unfold m; pose proof (pow2_ge_0 (h - 1 / 2)); nra).
  assert (H3 : 0 <= m * ev) by nra.
  assert (H4 : m * Tpc <= Tpc / 4) by nra.
  nra.
Qed.

Lemma corrected_at_zero (Tpc Ppc : R) :
  Tpc <> 0 -> corrected Tpc Ppc 0 0 0 = Ok (Tpc, Ppc).
Proof.
  intros HT. rewrite (corrected_value Tpc Ppc 0 0 0 0 e_zero) by lra.
  do 2 f_equal; [ring | field; lra].
Qed.

(** C7.  On the valid domain (a positive Tpc, each fraction in [0, 1], their
    sum at most 1) the correction term is
    e = 120 ((yN2+yCO2)^0.9 - (yN2+yCO2)^1.6) + 15 (yH2S^0.5 - yH2S^4),
    the corrected temperature is Tpc - e and the corrected pressure is
    Ppc TpcCorr / (Tpc + yH2S (1 - yH2S) (304.2 - TpcCorr)); nothing is
    raised. *)
Theorem wichert_aziz_formula (Tpc Ppc yH2S yCO2 yN2 : R) :
  0 < Tpc ->
  0 <= yH2S <= 1 -> 0 <= yCO2 <= 1 -> 0 <= yN2 <= 1 ->
  yH2S + yCO2 + yN2 <= 1 ->
  e yH2S yCO2 yN2 =
    Ok (120 * (Spec.power (yN2 + yCO2) 0.9 - Spec.power (yN2 + yCO2) 1.6)
        + 15 * (Spec.power yH2S 0.5 - yH2S ^ 4)) /\
  Tpc_corr Tpc (Spec.e yH2S yCO2 yN2) = Tpc - Spec.e yH2S yCO2 yN2 /\
  corrected Tpc Ppc yH2S yCO2 yN2 =
    Ok (Spec.TpcCorr Tpc (Spec.e yH2S yCO2 yN2),
        Spec.PpcCorr Ppc Tpc (Spec.TpcCorr Tpc (Spec.e yH2S yCO2 yN2)) yH2S).
Proof.
  intros HT Hh Hc Hn Hs.
  assert (He : e yH2S yCO2 yN2 = Ok (Spec.e yH2S yCO2 yN2))
    by (apply e_formula; lra).
  split; [exact He|]. split; [reflexivity|].
  apply (corrected_value Tpc Ppc yH2S yCO2 yN2 _ He).
  apply Rgt_not_eq, Rlt_gt, correction_divisor_positive;
    [assumption | apply e_nonneg; lra | assumption].
Qed.

Lemma wichert_aziz_formula_witness :
  0 < 389.7 /\ 0 <= 0.1 <= 1 /\ 0 <= 0.05 <= 1 /\ 0 <= 0.02 <= 1 /\
  0.1 + 0.05 + 0.02 <= 1 /\
  corrected 389.7 656.525 0.1 0.05 0.02 =
    Ok (Spec.TpcCorr 389.7 (Spec.e 0.1 0.05 0.02),
        Spec.PpcCorr 656.525 389.7
          (Spec.TpcCorr 389.7 (Spec.e 0.1 0.05 0.02)) 0.1).
Proof.
  assert (H0 : 0 < 389.7) by lra.
  assert (H1 : 0 <= 0.1 <= 1) by lra.
  assert (H2 : 0 <= 0.05 <= 1) by lra.
  assert (H3 : 0 <= 0.02 <= 1) by lra.
  assert (H4 : 0.1 + 0.05 + 0.02 <= 1) by lra.
  repeat (split; [assumption|]).
  exact (proj2 (proj2
           (wichert_aziz_formula 389.7 656.525 0.1 0.05 0.02 H0 H1 H2 H3 H4))).
Defined.

(** In binary64 too, taking 0 away changes nothing. *)
Lemma b64_sub_zero (x : float) : (x - 0)%float = x.
Proof.
  apply Prim2SF_inj. rewrite sub_spec.
  change (Prim2SF 0%float) with (S754_zero false).
  destruct (Prim2SF x) as [[|]| [|] | | s m ex]; reflexivity.
Qed.

(** C8, as the specification has it, fails, in two ways.  At Tpc = 0 line 126
    divides 0 by 0 and raises.  And the identity is not bit for bit: for the
    valid gravity SG = 1.0 and no contaminant the script computes, in
    binary64, Tpc = 444.70000000000005 and Ppc = 622.19999999999993, and
    its corrected pressure Ppc * Tpc / Tpc is 622.20000000000005, the next
    float up. *)
Lemma zero_contamination_not_exact :
  corrected 0 600 0 0 0 = Raise ZeroDivisionError /\
  B64.pseudo_critical 1 0 0 0 =
    B64.Value ((444.70000000000005%float, 622.19999999999993%float),
               (444.70000000000005%float, 622.20000000000005%float)) /\
  (622.20000000000005 =? 622.19999999999993)%float = false.
Proof.
  split; [|split; reflexivity].
  unfold corrected. run_with e_zero. unfold Ppc_corr, Tpc_corr.
  replace (0 + 0 * (1 - 0) * (304.2 - (0 - 0))) with 0 by ring.
  now rewrite truediv_zero.
Qed.

(** C8 (amended).  With no contaminant the correction is the identity in
    exact arithmetic, for every Ppc and every Tpc other than 0: the
    correction term is 0, the corrected temperature is Tpc and the corrected
    pressure is Ppc.  In binary64 the correction term is 0 and the corrected
    temperature is Tpc, bit for bit, for every float Tpc; the corrected
    pressure is the rounded quotient of the rounded product, which need not
    be Ppc bit for bit (at SG = 1.0 it is the next float up). *)
Theorem zero_contamination_identity (Tpc Ppc : R) (Tpc64 : float) :
  Tpc <> 0 ->
  (e 0 0 0 = Ok 0 /\
   Tpc_corr Tpc 0 = Tpc /\
   Ppc_corr Ppc Tpc (Tpc_corr Tpc 0) 0 = Ok Ppc /\
   corrected Tpc Ppc 0 0 0 = Ok (Tpc, Ppc)) /\
  (B64.e 0 0 0 = B64.Value 0%float /\
   B64.Tpc_corr Tpc64 0 = Tpc64).
Proof.
  intros HT. split.
  - split; [apply e_zero|].
    split; [unfold Tpc_corr; ring|].
    split; [|now apply corrected_at_zero].
    unfold Ppc_corr, Tpc_corr. rewrite truediv_ok by lra.
    f_equal. field. lra.
  - split; [reflexivity | apply b64_sub_zero].
Qed.

Lemma zero_contamination_identity_witness :
  389.7 <> 0 /\
  corrected 389.7 656.525 0 0 0 = Ok (389.7, 656.525) /\
  B64.Tpc_corr 389.7 0 = 389.7%float.
Proof.
  assert (H : 389.7 <> 0) by lra.
  pose proof (zero_contamination_identity 389.7 656.525 389.7%float H)
    as [(_ & _ & _ & Hc) [_ Ht]].
  split; [exact H|]. split; [exact Hc | exact Ht].
Defined.

(** ** No domain check on the corrected properties *)

(** For every input the script accepts (a gravity in [0.55, 1.0], each
    fraction in [0, 1]; the sum of the fractions is reported on the page but
    not enforced) the corrected pseudo-critical properties exist, are
    positive and stay within fixed bounds: the divisions of the handler do
    not meet a zero divisor. *)
Lemma corrected_positive (SG h c n : R) :
  0.55 <= SG <= 1 -> 0 <= h <= 1 -> 0 <= c <= 1 -> 0 <= n <= 1 ->
  exists tpc ppc tc pc,
    Tpc SG = Ok tpc /\ Ppc SG = Ok ppc /\
    corrected tpc ppc h c n = Ok (tc, pc) /\
    204 <= tc <= 925 /\ 100 <= pc <= 3500.
Proof.
  intros HSG Hh Hc Hn.
  destruct (sutton_bounds SG HSG) as [HT HP].
  pose proof (e_bounds h c n Hh Hc Hn) as He.
  set (tpc := 169.2 + 349.5 * SG - 74.0 * SG ^ 2) in *.
  set (ppc := 756.8 - 131.0 * SG - 3.6 * SG ^ 2) in *.
  set (ev := Spec.e h c n) in *.
  set (d := tpc + h * (1 - h) * (304.2 - (tpc - ev))).
  assert (Hd : 183 <= d <= 471).
  { unfold d. set (m := h * (1 - h)).
    assert (0 <= m) by (unfold m; nra).
    assert (m <= 1 / 4)
      by (unfold m; pose proof (pow2_ge_0 (h - 1 / 2)); nra).
    nra. }
  exists tpc, ppc, (tpc - ev), (ppc * (tpc - ev) / d).
  split; [apply Tpc_formula; lra|]. split; [apply Ppc_formula; lra|].
  split.
  - apply corrected_value; [apply e_formula; lra | fold d; lra].
  - split; [lra|].
    assert (Hn1 : 622 * 204 <= ppc * (tpc - ev)) by nra.
    assert (Hn2 : ppc * (tpc - ev) <= 684 * 925) by nra.
    split.
    + apply Rle_trans with (622 * 204 / 471); [lra|].
      apply Rle_trans with (ppc * (tpc - ev) / 471).
      * unfold Rdiv. apply Rmult_le_compat_r; [lra | assumption].
      * unfold Rdiv. apply Rmult_le_compat_l; [lra|].
        apply Rinv_le_contravar; lra.
    + apply Rle_trans with (684 * 925 / 183); [|lra].
      apply Rle_trans with (ppc * (tpc - ev) / 183).
      * unfold Rdiv. apply Rmult_le_compat_l; [lra|].
        apply Rinv_le_contravar; lra.
      * unfold Rdiv. apply Rmult_le_compat_r; [|assumption].
        left. apply Rinv_0_lt_compat. lra.
Qed.

(** For every input the script accepts, the reduced properties are computed
    without an error and are positive. *)
Theorem accepted_inputs_divide_safely (SG P T h c n : R) :
  0.55 <= SG <= 1 -> 14.7 <= P -> 60 <= T ->
  0 <= h <= 1 -> 0 <= c <= 1 -> 0 <= n <= 1 ->
  exists tpc ppc tc pc pr tr,
    Tpc SG = Ok tpc /\ Ppc SG = Ok ppc /\
    corrected tpc ppc h c n = Ok (tc, pc) /\ 0 < tc /\ 0 < pc /\
    Pr P pc = Ok pr /\ Tr (T + 459.67) tc = Ok tr /\ 0 < pr /\ 0 < tr.
Proof.
  intros HSG HP HT Hh Hc Hn.
  destruct (corrected_positive SG h c n HSG Hh Hc Hn)
    as (tpc & ppc & tc & pc & E1 & E2 & E3 & Htc & Hpc).
  exists tpc, ppc, tc, pc, (P / pc), ((T + 459.67) / tc).
  repeat split; try assumption; try lra.
  - apply truediv_ok. lra.
  - apply truediv_ok. lra.
  - apply Rdiv_lt_0_compat; lra.
  - apply Rdiv_lt_0_compat; lra.
Qed.

Lemma accepted_inputs_divide_safely_witness :
  (0.55 <= 0.75 <= 1 /\ 14.7 <= 2000 /\ 60 <= 150 /\ 0 <= 0.1 <= 1) /\
  exists tpc ppc tc pc pr tr,
    Tpc 0.75 = Ok tpc /\ Ppc 0.75 = Ok ppc /\
    corrected tpc ppc 0.1 0.1 0.1 = Ok (tc, pc) /\ 0 < tc /\ 0 < pc /\
    Pr 2000 pc = Ok pr /\ Tr (150 + 459.67) tc = Ok tr /\ 0 < pr /\ 0 < tr.
Proof.
  assert (HSG : 0.55 <= 0.75 <= 1) by lra.
  assert (HP : 14.7 <= 2000) by lra.
  assert (HT : 60 <= 150) by lra.
  assert (Hf : 0 <= 0.1 <= 1) by lra.
  split; [repeat split; lra|].
  exact (accepted_inputs_divide_safely 0.75 2000 150 0.1 0.1 0.1
           HSG HP HT Hf Hf Hf).
Defined.

(** ** The Hall-Yarborough residual and [Zfac] *)

Lemma pow_in_range (x : R) (b : Z) (n : nat) :
  Rabs x <= IZR b -> (b ^ Z.of_nat n < 2 ^ 1024 - 2 ^ 970)%Z ->
  Rabs (x ^ n) < overflow_threshold.
Proof.
  intros Hx Hb. rewrite <- RPow_abs.
  apply Rle_lt_trans with (IZR b ^ n).
  - apply pow_incr. split; [apply Rabs_pos | assumption].
  - rewrite pow_IZR. now apply below_threshold.
Qed.

(** The powers of [fy] are in range for every [t] up to 1e100 in
    magnitude. *)
Lemma fy_in_range_bound (t : R) : Rabs t <= IZR (10 ^ 100) -> fy_in_range t.
Proof.
  intros H. split; apply (pow_in_range t (10 ^ 100)); auto; reflexivity.
Qed.

Lemma fy_in_range_small (t : R) : -1 <= t <= 2 -> fy_in_range t.
Proof.
  intros H. apply fy_in_range_bound.
  apply Rle_trans with 2; [apply Rabs_le; lra|].
  apply (IZR_le 2). apply Z.leb_le. reflexivity.
Qed.

(** What [fy] raises is decided by [t] alone: nothing when its two powers
    are in range, [OverflowError] when one of them is not. *)
Lemma fy_ok (y alpha Ppr t : R) :
  fy_in_range t -> exists v, fy y alpha Ppr t = Ok v.
Proof.
  intros [H2 H3]. unfold fy.
  run_with (float_pow_positive_integer t 2 H2).
  run_with (float_pow_positive_integer t 3 H3).
  eexists. reflexivity.
Qed.

Lemma fy_raises (y alpha Ppr t : R) :
  ~ fy_in_range t -> fy y alpha Ppr t = Raise OverflowError.
Proof.
  intros H. unfold fy.
  destruct (float_pow_integer_cases t 2) as [[E2 H2]|[E2 _]];
    [|now rewrite E2].
  run_with E2.
  destruct (float_pow_integer_cases t 3) as [[E3 H3]|[E3 _]];
    [|now rewrite E3].
  exfalso. apply H. now split.
Qed.

Lemma fy_in_range_dec (t : R) : {fy_in_range t} + {~ fy_in_range t}.
Proof.
  unfold fy_in_range.
  destruct (Rlt_dec (Rabs (t ^ 2)) overflow_threshold);
    destruct (Rlt_dec (Rabs (t ^ 3)) overflow_threshold); tauto.
Qed.

Lemma fy_returns_in_range (y alpha Ppr t : R) (v : Np.float64) :
  fy y alpha Ppr t = Ok v -> fy_in_range t.
Proof.
  intros H. destruct (fy_in_range_dec t) as [Hr|Hr]; [assumption|].
  rewrite (fy_raises y alpha Ppr t Hr) in H. discriminate.
Qed.

(** On the physical branch [fy] is the residual of the specification. *)
Lemma fy_residual (y alpha Ppr t : R) :
  0 < y < 1 -> fy_in_range t ->
  fy y alpha Ppr t = Ok (Some (Spec.f alpha Ppr t y)).
Proof.
  intros [Hy0 Hy1] [H2 H3]. unfold fy.
  run_with (float_pow_positive_integer t 2 H2).
  run_with (float_pow_positive_integer t 3 H3).
  unfold Np.of_float. cbn [Np.subtract Np.lift2].
  rewrite (np_power_positive_integer y 2), (np_power_positive_integer y 3),
          (np_power_positive_integer y 4),
          (np_power_positive_integer (1 - y) 3).
  rewrite np_power_positive_base by assumption.
  cbn [Np.add Np.subtract Np.multiply Np.lift2 Np.divide].
  destruct (Req_dec_T ((1 - y) ^ Pos.to_nat 3) 0) as [E|_].
  - exfalso. apply pow_nonzero in E; [exact E | lra].
  - reflexivity.
Qed.

(** [Zfac] gets as far as its division for every reduced temperature of
    magnitude 1e-100 or more. *)
Lemma Zfac_in_range_bound (Tpr : R) : 1e-100 <= Rabs Tpr -> Zfac_in_range Tpr.
Proof.
  intros H.
  assert (H0 : Tpr <> 0).
  { intros ->. rewrite Rabs_R0 in H. lra. }
  assert (Ht : Rabs (1 / Tpr) <= IZR (10 ^ 100)).
  { unfold Rdiv. rewrite Rmult_1_l, Rabs_inv.
    replace (IZR (10 ^ 100)) with (/ 1e-100) by lra.
    apply Rinv_le_contravar; [lra | assumption]. }
  split; [assumption|]. split; [|now apply fy_in_range_bound].
  apply (pow_in_range (1 - 1 / Tpr) (10 ^ 100 + 1)); [|reflexivity].
  rewrite plus_IZR. unfold Rminus.
  apply Rle_trans with (Rabs 1 + Rabs (- (1 / Tpr))); [apply Rabs_triang|].
  rewrite Rabs_Ropp, Rabs_R1. lra.
Qed.

(** What [Zfac] returns where it gets as far as its division. *)
Lemma Zfac_value (fs : solver) (Tpr Ppr : R) :
  Zfac_in_range Tpr ->
  Zfac fs Tpr Ppr =
  Ok (Np.divide (Some (Spec.alpha Tpr * Ppr))
        (Some (root (fs (fun y => fy y (Spec.alpha Tpr) Ppr (Spec.t Tpr))
                        0.001)))).
Proof.
  intros (HT & Hsq & Hfy). unfold Zfac. run_with truediv_ok; [|assumption].
  run_with (float_pow_positive_integer (1 - 1 / Tpr) 2 Hsq).
  destruct (fy_ok 0.001
              (0.06125 * (1 / Tpr) * exp (-1.2 * (1 - 1 / Tpr) ^ Pos.to_nat 2))
              Ppr (1 / Tpr) Hfy) as [v Hv].
  run_with Hv. reflexivity.
Qed.

Lemma Zfac_ok (fs : solver) (Tpr Ppr : R) :
  Zfac_in_range Tpr -> exists z, Zfac fs Tpr Ppr = Ok z.
Proof. intros H. eexists. now apply Zfac_value. Qed.

Lemma Zfac_at_zero (fs : solver) (Ppr : R) :
  Zfac fs 0 Ppr = Raise ZeroDivisionError.
Proof. unfold Zfac. now rewrite truediv_zero. Qed.

(** Where a power is out of range, [Zfac] raises [OverflowError], at line
    137 or from within [fsolve]. *)
Lemma Zfac_out_of_range (fs : solver) (Tpr Ppr : R) :
  Tpr <> 0 -> ~ Zfac_in_range Tpr -> Zfac fs Tpr Ppr = Raise OverflowError.
Proof.
  intros HT H. unfold Zfac. run_with truediv_ok; [|assumption].
  destruct (float_pow_integer_cases (1 - 1 / Tpr) 2) as [[E Hsq]|[E _]];
    [|now rewrite E].
  run_with E.
  destruct (fy_in_range_dec (1 / Tpr)) as [Hfy|Hfy].
  - exfalso. apply H. split; [assumption|]. split; [exact Hsq | exact Hfy].
  - now rewrite fy_raises.
Qed.

Lemma Zfac_in_range_dec (Tpr : R) : {Zfac_in_range Tpr} + {~ Zfac_in_range Tpr}.
Proof.
  unfold Zfac_in_range.
  destruct (Req_dec_T Tpr 0); [right; tauto|].
  destruct (Rlt_dec (Rabs ((1 - 1 / Tpr) ^ 2)) overflow_threshold);
    [|right; tauto].
  destruct (fy_in_range_dec (1 / Tpr)); [left | right]; tauto.
Qed.

(** At Tpr = 1e-200 the square of line 137 is out of range. *)
Lemma Zfac_overflow_tiny (fs : solver) (Ppr : R) :
  Zfac fs 1e-200 Ppr = Raise OverflowError.
Proof.
  apply Zfac_out_of_range; [lra|].
  intros (_ & Hsq & _).
  replace (1 - 1 / 1e-200) with (IZR (1 - 10 ^ 200)) in Hsq
    by (rewrite minus_IZR; lra).
  rewrite pow_IZR, Rabs_pos_eq in Hsq by (apply IZR_le; discriminate).
  unfold overflow_threshold in Hsq. apply lt_IZR in Hsq.
  revert Hsq. vm_compute. discriminate.
Qed.

Lemma t_at_1 : Spec.t 1 = 1.
Proof. unfold Spec.t. field. Qed.

Lemma alpha_at_1 : Spec.alpha 1 = 0.06125.
Proof.
  unfold Spec.alpha. rewrite t_at_1.
  replace (-1.2 * (1 - 1) ^ 2) with 0 by ring.
  rewrite exp_0. ring.
Qed.

Lemma in_range_at_1 : Zfac_in_range 1.
Proof. apply Zfac_in_range_bound. rewrite Rabs_R1. lra. Qed.

Lemma Zfac_at_1 (fs : solver) (Ppr : R) :
  Zfac fs 1 Ppr =
  Ok (Np.divide (Some (0.06125 * Ppr))
        (Some (root (fs (fun y => fy y 0.06125 Ppr 1) 0.001)))).
Proof.
  rewrite Zfac_value by apply in_range_at_1. now rewrite alpha_at_1, t_at_1.
Qed.

Lemma residual_at_half : Spec.f 0.06125 1 1 0.5 = 0.634375.
Proof.
  unfold Spec.f.
  replace (2.18 + 2.82 * 1) with (IZR (Z.pos 5)) by lra.
  rewrite Rpower_positive_exponent by lra.
  change (Pos.to_nat 5) with 5%nat.
  replace ((1 - 0.5) ^ 3) with 0.125 by lra. lra.
Qed.

Lemma alpha_positive (Tpr : R) : 0 < Tpr -> 0 < Spec.alpha Tpr.
Proof.
  intros H. unfold Spec.alpha, Spec.t.
  apply Rmult_lt_0_compat; [|apply exp_pos].
  apply Rmult_lt_0_compat; [lra|]. apply Rdiv_lt_0_compat; lra.
Qed.

(** The value of [fy] at 0 and at 1, the two points where the physical
    branch ends. *)
Lemma fy_at_0 (alpha Ppr t : R) :
  0 < t -> fy_in_range t -> fy 0 alpha Ppr t = Ok (Some (- alpha * Ppr)).
Proof.
  intros Ht [H2 H3]. unfold fy.
  run_with (float_pow_positive_integer t 2 H2).
  run_with (float_pow_positive_integer t 3 H3).
  unfold Np.of_float. cbn [Np.subtract Np.lift2].
  rewrite (np_power_positive_integer 0 2), (np_power_positive_integer 0 3),
          (np_power_positive_integer 0 4),
          (np_power_positive_integer (1 - 0) 3).
  assert (Hw : Np.power (Some 0) (2.18 + 2.82 * t) = Some 0).
  { unfold Np.power.
    destruct (Req_dec_T (2.18 + 2.82 * t) 0) as [E|_]; [nra|].
    destruct (Req_dec_T 0 0) as [_|E]; [|contradiction].
    destruct (Rlt_dec (2.18 + 2.82 * t) 0) as [E|_]; [nra | reflexivity]. }
  rewrite Hw.
  cbn [Np.add Np.subtract Np.multiply Np.lift2].
  rewrite np_divide_ok by (simpl; lra).
  cbn [Np.add Np.subtract Np.multiply Np.lift2].
  do 2 f_equal. simpl. field.
Qed.

Lemma fy_at_1 (alpha Ppr t : R) : fy_in_range t -> fy 1 alpha Ppr t = Ok None.
Proof.
  intros [H2 H3]. unfold fy.
  run_with (float_pow_positive_integer t 2 H2).
  run_with (float_pow_positive_integer t 3 H3).
  unfold Np.of_float. cbn [Np.subtract Np.lift2].
  rewrite (np_power_positive_integer 1 2), (np_power_positive_integer 1 3),
          (np_power_positive_integer 1 4),
          (np_power_positive_integer (1 - 1) 3).
  replace ((1 - 1) ^ Pos.to_nat 3) with 0 by (simpl; ring).
  cbn [Np.add Np.subtract Np.lift2].
  rewrite np_divide_zero_divisor. reflexivity.
Qed.

(** At Tpr = 1 and Ppr = 0 the point y = 0 is a zero of [fy]. *)
Lemma fy_root_at_0 : fy 0 0.06125 0 1 = Ok (Some 0).
Proof.
  rewrite fy_at_0 by (try apply fy_in_range_small; lra).
  do 2 f_equal. ring.
Qed.

(** At Tpr = 141/41, where t = 41/141 and the exponent 2.18 + 2.82 t is 3,
    the residual without its pressure term is 2 - 4 A + 8 B at y = 2. *)
Lemma residual_at_2 :
  Spec.f 0 0 (41 / 141) 2 =
  2 - 4 * (14.76 * (41 / 141) - 9.76 * (41 / 141) ^ 2 + 4.58 * (41 / 141) ^ 3)
    + 8 * (90.7 * (41 / 141) - 242.2 * (41 / 141) ^ 2 + 42.4 * (41 / 141) ^ 3).
Proof.
  unfold Spec.f.
  replace (2.18 + 2.82 * (41 / 141)) with (IZR (Z.pos 3)) by lra.
  rewrite Rpower_positive_exponent by lra.
  change (Pos.to_nat 3) with 3%nat.
  replace ((1 - 2) ^ 3) with (-1) by lra. lra.
Qed.

Lemma t_at_141_41 : Spec.t (141 / 41) = 41 / 141.
Proof. unfold Spec.t. field. Qed.

Lemma in_range_at_141_41 : Zfac_in_range (141 / 41).
Proof.
  apply Zfac_in_range_bound. rewrite Rabs_pos_eq by lra. lra.
Qed.

(** For that reduced temperature and the reduced pressure that goes with it,
    a positive one, y = 2 is a zero of [fy]. *)
Lemma fy_root_at_2 :
  0 < Ppr_with_root_at (141 / 41) 2 /\
  fy 2 (Spec.alpha (141 / 41)) (Ppr_with_root_at (141 / 41) 2)
     (Spec.t (141 / 41)) = Ok (Some 0).
Proof.
  assert (Ha : 0 < Spec.alpha (141 / 41)) by (apply alpha_positive; lra).
  unfold Ppr_with_root_at. rewrite t_at_141_41, residual_at_2.
  split; [apply Rdiv_lt_0_compat; lra|].
  destruct (fy_in_range_small (41 / 141)) as [H2 H3]; [lra|].
  unfold fy.
  run_with (float_pow_positive_integer (41 / 141) 2 H2).
  run_with (float_pow_positive_integer (41 / 141) 3 H3).
  unfold Np.of_float. cbn [Np.subtract Np.lift2].
  rewrite (np_power_positive_integer 2 2), (np_power_positive_integer 2 3),
          (np_power_positive_integer 2 4),
          (np_power_positive_integer (1 - 2) 3).
  replace (2.18 + 2.82 * (41 / 141)) with (IZR (Z.pos 3)) by lra.
  rewrite (np_power_positive_integer 2 3).
  cbn [Np.add Np.subtract Np.multiply Np.lift2].
  rewrite np_divide_ok by (simpl; lra).
  cbn [Np.add Np.subtract Np.multiply Np.lift2].
  do 2 f_equal. simpl. field. lra.
Qed.

(** At Tpr = 1 and the reduced pressure that goes with it, y = 0.5 is a zero
    of [fy] inside (0, 1). *)
Lemma fy_root_at_half :
  0 <= Ppr_with_root_at 1 0.5 /\
  fy 0.5 (Spec.alpha 1) (Ppr_with_root_at 1 0.5) (Spec.t 1) = Ok (Some 0).
Proof.
  assert (Hf : Spec.f 0 0 1 0.5 = 0.695625).
  { unfold Spec.f.
    replace (2.18 + 2.82 * 1) with (IZR (Z.pos 5)) by lra.
    rewrite Rpower_positive_exponent by lra.
    change (Pos.to_nat 5) with 5%nat.
    replace ((1 - 0.5) ^ 3) with 0.125 by lra. lra. }
  unfold Ppr_with_root_at. rewrite t_at_1, alpha_at_1, Hf.
  split; [lra|].
  rewrite fy_residual by (try apply fy_in_range_small; lra).
  do 2 f_equal.
  replace (Spec.f 0.06125 (0.695625 / 0.06125) 1 0.5)
    with (Spec.f 0 0 1 0.5 - 0.695625) by (unfold Spec.f; lra).
  rewrite Hf. ring.
Qed.

(** At Tpr = Ppr = 1 the residual at the initial guess 0.001 is below
    -0.06. *)
Lemma residual_at_guess : Spec.f 0.06125 1 1 0.001 < -0.06.
Proof.
  unfold Spec.f.
  replace (2.18 + 2.82 * 1) with (IZR (Z.pos 5)) by lra.
  rewrite Rpower_positive_exponent by lra.
  change (Pos.to_nat 5) with 5%nat.
  replace ((1 - 0.001) ^ 3) with 0.997002999 by lra. lra.
Qed.

(** C3, as the specification has it, fails, on each of its three cases.
    No convergence: at Tpr = Ppr = 1 a search that ran out of its budget at
    y = 0.5, where the residual is still 0.634375, makes [Zfac] return 0.1225
    and no error.  A root with y >= 1: at Tpr = 141/41 and the positive
    reduced pressure for which y = 2 is a zero of [fy], a search that
    converges there makes [Zfac] return a Z-factor above 21 and no error.  A
    root with y <= 0: at Tpr = 1 and Ppr = 0, where y = 0 is a zero of [fy],
    [Zfac] returns 0 / 0, not a number, and no error. *)
Lemma Zfac_silent_on_bad_roots :
  (ier (exhausted_at 0.5 (fun y => fy y 0.06125 1 1) 0.001) = 2%Z /\
   fy 0.5 0.06125 1 1 = Ok (Some 0.634375) /\
   Zfac (exhausted_at 0.5) 1 1 = Ok (Some 0.1225)) /\
  (fy 2 (Spec.alpha (141 / 41)) (Ppr_with_root_at (141 / 41) 2)
      (Spec.t (141 / 41)) = Ok (Some 0) /\
   exists z : R,
     Zfac (converged_at 2) (141 / 41) (Ppr_with_root_at (141 / 41) 2)
     = Ok (Some z) /\ 21 < z) /\
  (fy 0 0.06125 0 1 = Ok (Some 0) /\
   Zfac (converged_at 0) 1 0 = Ok None).
Proof.
  split; [|split].
  - repeat split.
    + rewrite fy_residual by (try apply fy_in_range_small; lra).
      now rewrite residual_at_half.
    + rewrite Zfac_at_1. cbn [exhausted_at root].
      rewrite np_divide_ok by lra. do 2 f_equal. lra.
  - split; [apply fy_root_at_2|].
    assert (Ha : 0 < Spec.alpha (141 / 41)) by (apply alpha_positive; lra).
    exists (Spec.f 0 0 (41 / 141) 2 / 2). split.
    + rewrite Zfac_value by apply in_range_at_141_41.
      cbn [converged_at root].
      rewrite np_divide_ok by lra. do 2 f_equal.
      unfold Ppr_with_root_at. rewrite t_at_141_41. field. lra.
    + rewrite residual_at_2. lra.
  - split; [apply fy_root_at_0|].
    rewrite Zfac_at_1. cbn [converged_at root].
    apply f_equal, np_divide_zero_divisor.
Qed.

(** C3 (amended).  [Zfac] reports no error of the root search.  Whenever it
    returns, it returns alpha Ppr / y for the y that [fsolve] hands back,
    whatever the status of the search and wherever y lies (a value that is
    not finite when y = 0), and it returns for every Tpr of magnitude 1e-100
    or more.  What it raises is raised by Python's arithmetic, the same
    whatever the search would do: ZeroDivisionError, only at Tpr = 0, and
    OverflowError, only at a Tpr other than 0 of magnitude below 1e-100. *)
Theorem Zfac_reports_no_search_error (fs : solver) (Tpr Ppr : R) :
  (forall z, Zfac fs Tpr Ppr = Ok z ->
     z = Np.divide (Some (Spec.alpha Tpr * Ppr))
           (Some (root (fs (fun y => fy y (Spec.alpha Tpr) Ppr (Spec.t Tpr))
                           0.001)))) /\
  (forall e, Zfac fs Tpr Ppr = Raise e ->
     (forall fs', Zfac fs' Tpr Ppr = Raise e) /\
     (e = ZeroDivisionError /\ Tpr = 0 \/
      e = OverflowError /\ Tpr <> 0 /\ Rabs Tpr < 1e-100)) /\
  (1e-100 <= Rabs Tpr -> exists z, Zfac fs Tpr Ppr = Ok z).
Proof.
  split; [|split].
  - intros z Hz. destruct (Zfac_in_range_dec Tpr) as [Hr|Hr].
    + rewrite Zfac_value in Hz by assumption. now injection Hz.
    + destruct (Req_dec_T Tpr 0) as [->|HT].
      * rewrite Zfac_at_zero in Hz. discriminate.
      * rewrite Zfac_out_of_range in Hz by assumption. discriminate.
  - intros e He. destruct (Req_dec_T Tpr 0) as [->|HT].
    + rewrite Zfac_at_zero in He. injection He as <-.
      split; [intros fs'; apply Zfac_at_zero | now left].
    + destruct (Zfac_in_range_dec Tpr) as [Hr|Hr].
      * rewrite Zfac_value in He by assumption. discriminate.
      * rewrite Zfac_out_of_range in He by assumption. injection He as <-.
        split; [intros fs'; now apply Zfac_out_of_range|].
        right. split; [reflexivity|]. split; [assumption|].
        destruct (Rlt_dec (Rabs Tpr) 1e-100) as [Hlt|Hge]; [assumption|].
        exfalso. apply Hr, Zfac_in_range_bound. lra.
  - intros H. now apply Zfac_ok, Zfac_in_range_bound.
Qed.

(** C10, as the specification has it, fails: [Zfac] does not return for
    every (Tpr, Ppr).  At Tpr = 0 the reciprocal of line 136 raises
    ZeroDivisionError, and at Tpr = 1e-200 the square of line 137 raises
    OverflowError, before any root search and any division. *)
Lemma Zfac_raises_before_the_division :
  Zfac (converged_at 0.5) 0 1 = Raise ZeroDivisionError /\
  Zfac (converged_at 0.5) 1e-200 1 = Raise OverflowError.
Proof. split; [apply Zfac_at_zero | apply Zfac_overflow_tiny]. Qed.

(** C10 (amended).  The last division of [Zfac] is not protected.  For every
    Tpr of magnitude 1e-100 or more and every Ppr, with y the value the
    search returns, [Zfac] returns alpha Ppr / y for every y other than 0,
    inside (0, 1) or not, and takes the branch of the zero divisor (numpy's
    warning and a value that is not finite, no exception) exactly when
    y = 0. *)
Theorem Zfac_division_unguarded (fs : solver) (Tpr Ppr : R) :
  1e-100 <= Rabs Tpr ->
  let y := root (fs (fun y => fy y (Spec.alpha Tpr) Ppr (Spec.t Tpr)) 0.001) in
  (y <> 0 -> Zfac fs Tpr Ppr = Ok (Some (Spec.alpha Tpr * Ppr / y))) /\
  (Zfac fs Tpr Ppr = Ok None <-> y = 0).
Proof.
  intros HT y.
  rewrite Zfac_value by now apply Zfac_in_range_bound. fold y. split.
  - intros Hy. now rewrite np_divide_ok.
  - destruct (Req_dec_T y 0) as [->|Hy].
    + rewrite np_divide_zero_divisor. tauto.
    + rewrite np_divide_ok by assumption.
      split; [discriminate | contradiction].
Qed.

Lemma Zfac_division_unguarded_witness :
  1e-100 <= Rabs 1 /\
  Zfac (converged_at 2) 1 1 = Ok (Some (Spec.alpha 1 * 1 / 2)) /\
  (Zfac (converged_at 0) 1 1 = Ok None <-> 0 = 0).
Proof.
  assert (H : 1e-100 <= Rabs 1) by (rewrite Rabs_R1; lra).
  split; [exact H|]. split.
  - apply (proj1 (Zfac_division_unguarded (converged_at 2) 1 1 H)).
    cbn [converged_at root]. lra.
  - exact (proj2 (Zfac_division_unguarded (converged_at 0) 1 1 H)).
Defined.

(** C6, as the specification has it, fails.  Inside its domain, at
    Tpr = 1e-200 and Ppr = 1, [Zfac] finds no root and returns no Z: the
    square of line 137 raises OverflowError.  And where the search runs, what
    it hands back need not be a root: at Tpr = Ppr = 1 a search that makes
    no progress and stops at the initial guess 0.001, where the residual is
    below -0.06, makes [Zfac] return Z = 61.25. *)
Lemma Zfac_without_a_root :
  (0 < 1e-200 /\ 0 <= 1 /\
   Zfac (exhausted_at 0.001) 1e-200 1 = Raise OverflowError) /\
  (ier (exhausted_at 0.001 (fun y => fy y 0.06125 1 1) 0.001) = 2%Z /\
   (exists v, fy 0.001 0.06125 1 1 = Ok (Some v) /\ v < -0.06) /\
   Zfac (exhausted_at 0.001) 1 1 = Ok (Some 61.25)).
Proof.
  split.
  - split; [lra|]. split; [lra | apply Zfac_overflow_tiny].
  - split; [reflexivity|]. split.
    + exists (Spec.f 0.06125 1 1 0.001).
      split; [|apply residual_at_guess].
      apply fy_residual; [lra | apply fy_in_range_small; lra].
    + rewrite Zfac_at_1. cbn [exhausted_at root].
      rewrite np_divide_ok by lra. do 2 f_equal. lra.
Qed.

(** C6 (amended).  For Tpr >= 1e-100 and Ppr >= 0, [Zfac] takes t = 1 / Tpr
    and alpha = 0.06125 t exp(-1.2 (1 - t)^2), hands [fsolve] the function
    [fy], which on 0 < y < 1 is the Hall-Yarborough residual
    f(y) = -alpha Ppr + (y + y^2 + y^3 - y^4) / (1 - y)^3
           - (14.76 t - 9.76 t^2 + 4.58 t^3) y^2
           + (90.7 t - 242.2 t^2 + 42.4 t^3) y^(2.18 + 2.82 t),
    with the initial guess 0.001, and returns alpha Ppr / y for the y that
    comes back, root or not; when that y is a zero of [fy] in (0, 1) it is a
    root of f and the result is the number alpha Ppr / y. *)
Theorem Zfac_hall_yarborough (fs : solver) (Tpr Ppr : R) :
  1e-100 <= Tpr -> 0 <= Ppr ->
  let t := 1 / Tpr in
  let alpha := 0.06125 * t * exp (-1.2 * (1 - t) ^ 2) in
  let y := root (fs (fun y => fy y alpha Ppr t) 0.001) in
  (forall y', 0 < y' < 1 ->
     fy y' alpha Ppr t = Ok (Some (Spec.f alpha Ppr t y'))) /\
  Zfac fs Tpr Ppr = Ok (Np.divide (Some (alpha * Ppr)) (Some y)) /\
  (0 < y < 1 -> fy y alpha Ppr t = Ok (Some 0) ->
   Spec.f alpha Ppr t y = 0 /\
   Zfac fs Tpr Ppr = Ok (Some (alpha * Ppr / y))).
Proof.
  intros HT HP t alpha y.
  assert (Hr : Zfac_in_range Tpr).
  { apply Zfac_in_range_bound. rewrite Rabs_pos_eq; lra. }
  assert (Hfy : fy_in_range t) by apply Hr.
  assert (HZ : Zfac fs Tpr Ppr = Ok (Np.divide (Some (alpha * Ppr)) (Some y)))
    by now apply Zfac_value.
  split; [intros y' Hy'; now apply fy_residual|].
  split; [exact HZ|].
  intros Hy Hroot. rewrite fy_residual in Hroot by assumption.
  split; [congruence|].
  rewrite HZ, np_divide_ok by lra. reflexivity.
Qed.

Lemma Zfac_hall_yarborough_witness :
  1e-100 <= 1 /\ 0 <= Ppr_with_root_at 1 0.5 /\
  fy 0.5 (Spec.alpha 1) (Ppr_with_root_at 1 0.5) (Spec.t 1) = Ok (Some 0) /\
  Spec.f (Spec.alpha 1) (Ppr_with_root_at 1 0.5) (Spec.t 1) 0.5 = 0 /\
  Zfac (converged_at 0.5) 1 (Ppr_with_root_at 1 0.5) =
  Ok (Some (Spec.alpha 1 * Ppr_with_root_at 1 0.5 / 0.5)).
Proof.
  assert (H1 : 1e-100 <= 1) by lra.
  destruct fy_root_at_half as [H2 Hroot].
  assert (Hy : 0 < 0.5 < 1) by lra.
  split; [exact H1|]. split; [exact H2|]. split; [exact Hroot|].
  exact (proj2 (proj2 (Zfac_hall_yarborough (converged_at 0.5) 1
                         (Ppr_with_root_at 1 0.5) H1 H2)) Hy Hroot).
Defined.

(** ** The pressure sweep *)

Lemma pressures_1500 :
  pressures 1500 =
  [Float 14.7; Int 200; Int 400; Int 600; Int 800; Int 1000; Int 1200;
   Int 1400; Int 1600; Int 1800; Int 2000; Int 2200; Int 2400].
Proof.
  unfold pressures.
  replace (1500 + 1000) with (IZR 2500) by lra.
  rewrite int_of_float_IZR. reflexivity.
Qed.

Lemma first_multiple_from_2500 :
  Spec.first_multiple_of_200_from (1500 + 1000) = 2600%Z.
Proof.
  unfold Spec.first_multiple_of_200_from.
  rewrite (Zceil_eq 13); [reflexivity | lra].
Qed.

Lemma multiples_range (n : Z) :
  multiples_of_200_upto n (range 200 (n + 1) 200).
Proof.
  split; [apply range_sorted; lia|].
  intros z. rewrite in_range by lia.
  replace ((z - 200) mod 200)%Z with (z mod 200)%Z.
  - lia.
  - replace (z - 200)%Z with (z + (-1) * 200)%Z by ring.
    now rewrite Z.mod_add by lia.
Qed.

Lemma b64_pressures_1500 :
  B64.pressures 1500 =
  B64.Value
    [B64.Float 14.7; B64.Int 200; B64.Int 400; B64.Int 600; B64.Int 800;
     B64.Int 1000; B64.Int 1200; B64.Int 1400; B64.Int 1600; B64.Int 1800;
     B64.Int 2000; B64.Int 2200; B64.Int 2400].
Proof. reflexivity. Qed.

(** C1, as the specification has it, fails: for P = 1500 the code stops at
    2400, the last multiple of 200 that does not exceed P + 1000 = 2500,
    where the specification goes on to 2600, the first one that reaches it.
    The run on binary64 floats gives the same list as the model on reals. *)
Lemma sweep_1500_stops_at_2400 :
  pressures 1500 =
  [Float 14.7; Int 200; Int 400; Int 600; Int 800; Int 1000; Int 1200;
   Int 1400; Int 1600; Int 1800; Int 2000; Int 2200; Int 2400] /\
  B64.pressures 1500 =
  B64.Value
    [B64.Float 14.7; B64.Int 200; B64.Int 400; B64.Int 600; B64.Int 800;
     B64.Int 1000; B64.Int 1200; B64.Int 1400; B64.Int 1600; B64.Int 1800;
     B64.Int 2000; B64.Int 2200; B64.Int 2400] /\
  Spec.pressures 1500 =
  [Float 14.7; Int 200; Int 400; Int 600; Int 800; Int 1000; Int 1200;
   Int 1400; Int 1600; Int 1800; Int 2000; Int 2200; Int 2400; Int 2600].
Proof.
  split; [apply pressures_1500|]. split; [apply b64_pressures_1500|].
  unfold Spec.pressures. rewrite first_multiple_from_2500.
  vm_compute. reflexivity.
Qed.

(** C1 (amended).  For every input pressure P >= 14.7 the sweep is 14.7
    followed, in increasing order, by exactly the multiples of 200 from 200 up
    to int(P + 1000), the integer part of the sum: it ends at the last
    multiple of 200 that does not exceed that integer (2400 for P = 1500).
    This holds in the model on reals and, with the sum and its integer part
    taken in binary64, for the run on floats. *)
Theorem pressures_sweep (P : R) (P64 : float) (n64 : Z) :
  14.7 <= P ->
  B64.int_of_float (P64 + 1000) = B64.Value n64 ->
  (exists ms : list Z,
     pressures P = Float 14.7 :: map Int ms /\
     multiples_of_200_upto (Zfloor (P + 1000)) ms) /\
  (exists ms : list Z,
     B64.pressures P64 = B64.Value (B64.Float 14.7 :: map B64.Int ms) /\
     multiples_of_200_upto n64 ms).
Proof.
  intros HP Hn. split.
  - exists (range 200 (int_of_float (P + 1000) + 1) 200).
    split; [reflexivity|].
    rewrite int_of_float_nonneg by lra. apply multiples_range.
  - exists (range 200 (n64 + 1) 200).
    split; [|apply multiples_range].
    unfold B64.pressures. now rewrite Hn.
Qed.

Lemma pressures_sweep_witness :
  14.7 <= 1500 /\
  B64.int_of_float (1500 + 1000) = B64.Value 2500%Z /\
  (exists ms : list Z,
     pressures 1500 = Float 14.7 :: map Int ms /\
     multiples_of_200_upto (Zfloor (1500 + 1000)) ms) /\
  (exists ms : list Z,
     B64.pressures 1500 = B64.Value (B64.Float 14.7 :: map B64.Int ms) /\
     multiples_of_200_upto 2500 ms).
Proof.
  assert (H : 14.7 <= 1500) by lra.
  assert (H64 : B64.int_of_float (1500 + 1000) = B64.Value 2500%Z)
    by reflexivity.
  split; [exact H|]. split; [exact H64|].
  exact (pressures_sweep 1500 1500%float 2500%Z H H64).
Defined.

Lemma sample_floor (P : R) : In (Float 14.7) (pressures P).
Proof. now left. Qed.

Lemma sample_multiple (z : Z) :
  (200 <= z)%Z -> (z mod 200 = 0)%Z -> In (Int z) (pressures (IZR z)).
Proof.
  intros Hz Hm. right. apply in_map. apply in_range; [lia|].
  rewrite <- plus_IZR, int_of_float_IZR.
  split; [lia|].
  replace (z - 200)%Z with (z + (-1) * 200)%Z by ring.
  now rewrite Z.mod_add by lia.
Qed.

Lemma sample_shape (P : R) (p : num) :
  In p (pressures P) ->
  p = Float 14.7 \/ exists z, p = Int z /\ (200 <= z)%Z /\ (z mod 200 = 0)%Z.
Proof.
  intros [<-|H]; [now left|]. right.
  apply in_map_iff in H. destruct H as (z & <- & Hz).
  apply in_range in Hz; [|lia]. destruct Hz as [[Hlo _] Hm].
  exists z. split; [reflexivity|]. split; [assumption|].
  replace z with (z - 200 + 1 * 200)%Z by ring.
  now rewrite Z.mod_add by lia.
Qed.

Lemma no_sample_is_1500 (p : num) :
  In p (pressures 1500) -> to_float p <> 1500.
Proof.
  rewrite pressures_1500. simpl.
  intros H; repeat (destruct H as [<-|H]; [simpl; lra|]); contradiction.
Qed.

(** ** The highlighted row *)

Lemma highlight_point_none (df : DataFrame) (P : R) :
  (forall row, In row df -> fst row <> P) -> highlight_point df P = [].
Proof.
  intros H. unfold highlight_point.
  induction df as [|row df IH]; [reflexivity|].
  simpl. destruct (Req_dec_T (fst row) P) as [E|_].
  - exfalso. apply (H row); [now left | exact E].
  - apply IH. intros r Hr. apply H. now right.
Qed.

Lemma highlight_point_some (df : DataFrame) (P : R) (row : R * Np.float64) :
  In row df -> fst row = P ->
  exists r rest, highlight_point df P = r :: rest /\ fst r = P.
Proof.
  intros Hin HP.
  assert (Hf : In row (highlight_point df P)).
  { apply filter_In. split; [assumption|].
    destruct (Req_dec_T (fst row) P); [reflexivity | contradiction]. }
  destruct (highlight_point df P) as [|r rest] eqn:E; [contradiction|].
  exists r, rest. split; [reflexivity|].
  assert (Hr : In r (highlight_point df P)) by (rewrite E; now left).
  apply filter_In in Hr. destruct Hr as [_ Hr].
  destruct (Req_dec_T (fst r) P); [assumption | discriminate].
Qed.

Lemma data_frame_pressure (ps : list num) (zs : list Np.float64)
    (row : R * Np.float64) :
  In row (data_frame ps zs) -> exists p, In p ps /\ fst row = to_float p.
Proof.
  unfold data_frame. destruct row as [x z]. intros H.
  apply in_combine_l in H. apply in_map_iff in H.
  destruct H as (p & Hp & Hin). exists p. now split.
Qed.

Lemma in_combine_exists {A B : Type} (l : list A) (l' : list B) (x : A) :
  In x l -> length l' = length l -> exists y, In (x, y) (combine l l').
Proof.
  revert l'. induction l as [|a l IH]; intros l' Hin Hlen; [contradiction|].
  destruct l' as [|b l']; [discriminate|].
  destruct Hin as [->|Hin].
  - exists b. now left.
  - destruct (IH l' Hin) as [y Hy]; [simpl in Hlen; lia|].
    exists y. now right.
Qed.

(** The reduced temperature of an accepted temperature is one at which
    [Zfac] gets as far as its division. *)
Lemma reduced_temperature_in_range (T tc : R) :
  60 <= T -> 0 < tc <= 925 -> Zfac_in_range ((T + 459.67) / tc).
Proof.
  intros HT Htc. apply Zfac_in_range_bound.
  assert (H : 0.5 <= (T + 459.67) / tc).
  { apply Rmult_le_reg_r with tc; [lra|].
    unfold Rdiv. rewrite Rmult_assoc, Rinv_l by lra. lra. }
  rewrite Rabs_pos_eq; lra.
Qed.

Lemma z_factors_ok (fs : solver) (T_rankine tc pc : R) (ps : list num) :
  Zfac_in_range (T_rankine / tc) -> tc <> 0 -> pc <> 0 ->
  exists zs, z_factors fs T_rankine tc pc ps = Ok zs /\ length zs = length ps.
Proof.
  intros HT Htc Hpc. apply comprehension_ok. intros p _. cbv beta.
  run_with (truediv_ok T_rankine tc Htc).
  run_with (truediv_ok (to_float p) pc Hpc).
  now apply Zfac_ok.
Qed.

(** The handler raises [IndexError] when no sample is the input pressure. *)
Lemma calculate_no_match (fs : solver) (P T tc pc : R) :
  Zfac_in_range ((T + 459.67) / tc) -> tc <> 0 -> pc <> 0 ->
  (forall p, In p (pressures P) -> to_float p <> P) ->
  calculate fs P T tc pc = Raise IndexError.
Proof.
  intros HT Htc Hpc Hno. unfold calculate, Pr, Tr.
  run_with (truediv_ok P pc Hpc).
  run_with (truediv_ok (T + 459.67) tc Htc).
  destruct (Zfac_ok fs ((T + 459.67) / tc) (P / pc) HT) as [z Hz].
  run_with Hz.
  destruct (z_factors_ok fs (T + 459.67) tc pc (pressures P) HT Htc Hpc)
    as (zs & Hzs & _).
  run_with Hzs.
  rewrite highlight_point_none; [reflexivity|].
  intros row Hrow. apply data_frame_pressure in Hrow.
  destruct Hrow as (p & Hp & ->). now apply Hno.
Qed.

(** The handler comes to its end when a sample is the input pressure; the
    label is the Z-factor of the first row selected. *)
Lemma calculate_match (fs : solver) (P T tc pc : R) (p : num) :
  Zfac_in_range ((T + 459.67) / tc) -> tc <> 0 -> pc <> 0 ->
  In p (pressures P) -> to_float p = P ->
  exists r row rest,
    calculate fs P T tc pc = Ok r /\
    highlighted r = row :: rest /\ fst row = P /\ label r = snd row.
Proof.
  intros HT Htc Hpc Hin Hp. unfold calculate, Pr, Tr.
  run_with (truediv_ok P pc Hpc).
  run_with (truediv_ok (T + 459.67) tc Htc).
  destruct (Zfac_ok fs ((T + 459.67) / tc) (P / pc) HT) as [z Hz].
  run_with Hz.
  destruct (z_factors_ok fs (T + 459.67) tc pc (pressures P) HT Htc Hpc)
    as (zs & Hzs & Hlen).
  run_with Hzs.
  destruct (in_combine_exists (map to_float (pressures P)) zs P) as [zP HzP].
  { apply in_map_iff. exists p. now split. }
  { now rewrite length_map. }
  destruct (highlight_point_some (data_frame (pressures P) zs) P (P, zP)
              HzP eq_refl) as (row & rest & Hhp & Hrow).
  rewrite Hhp. cbn [first_z_factor bind].
  eexists _, row, rest. split; [reflexivity|]. cbn. now split.
Qed.

(** What an accepted run of the script ends in: it comes to its end when the
    input pressure is 14.7 or a multiple of 200, and raises [IndexError] for
    every other pressure. *)
Theorem script_outcome (fs : solver) (SG P T h c n : R) :
  0.55 <= SG <= 1 -> 14.7 <= P -> 60 <= T ->
  0 <= h <= 1 -> 0 <= c <= 1 -> 0 <= n <= 1 ->
  ((P = 14.7 \/ exists z, P = IZR z /\ (200 <= z)%Z /\ (z mod 200 = 0)%Z) ->
   exists r, script fs SG P T h c n = Ok r) /\
  (P <> 14.7 -> (forall z, (z mod 200 = 0)%Z -> P <> IZR z) ->
   script fs SG P T h c n = Raise IndexError).
Proof.
  intros HSG HP HT Hh Hc Hn.
  destruct (corrected_positive SG h c n HSG Hh Hc Hn)
    as (tpc & ppc & tc & pc & E1 & E2 & E3 & Htc & Hpc).
  unfold script. rewrite E1, E2. cbn [bind]. run_with E3. cbn [fst snd].
  split.
  - intros Hs.
    assert (Hin : exists p, In p (pressures P) /\ to_float p = P).
    { destruct Hs as [->|(z & -> & Hz & Hm)].
      - exists (Float 14.7). split; [apply sample_floor | reflexivity].
      - exists (Int z). split; [now apply sample_multiple | reflexivity]. }
    destruct Hin as (p & Hin & Hp).
    destruct (calculate_match fs P T tc pc p) as (r & _ & _ & Hr & _);
      try assumption; try lra;
      [apply reduced_temperature_in_range; lra|].
    now exists r.
  - intros H147 Hmult.
    apply calculate_no_match; try lra;
      [apply reduced_temperature_in_range; lra|].
    intros p Hin. apply sample_shape in Hin.
    destruct Hin as [->|(z & -> & _ & Hm)]; simpl.
    + congruence.
    + intros E. now apply (Hmult z).
Qed.

Lemma b64_highlight_point_none (df : B64.DataFrame) (P : float) :
  Forall (fun row => (fst row =? P)%float = false) df ->
  B64.highlight_point df P = [].
Proof.
  intros H. unfold B64.highlight_point.
  induction H as [|row df Hrow _ IH]; [reflexivity|].
  simpl. now rewrite Hrow.
Qed.

Lemma b64_no_sample_is_1500 (zs : list float) :
  Forall (fun row => (fst row =? 1500)%float = false)
    (B64.data_frame
       [B64.Float 14.7; B64.Int 200; B64.Int 400; B64.Int 600; B64.Int 800;
        B64.Int 1000; B64.Int 1200; B64.Int 1400; B64.Int 1600; B64.Int 1800;
        B64.Int 2000; B64.Int 2200; B64.Int 2400] zs).
Proof.
  apply Forall_forall. intros [x z] Hin. unfold B64.data_frame in Hin.
  apply in_combine_l in Hin. simpl in Hin. cbn [fst].
  repeat (destruct Hin as [<-|Hin]; [reflexivity|]). contradiction.
Qed.

(** C2.  For P = 1500 no sample of the sweep equals P and the selection
    [highlight_point] is empty, whatever the Z-factors of the table; the next
    statement of the handler takes the first Z-factor of that empty
    selection and raises [IndexError], in the model on reals and in binary64
    alike, and the run of the script at SG = 0.75, P = 1500, T = 150 and no
    contaminant ends in [IndexError], whatever the root finder does. *)
Theorem highlight_1500_raises
    (fs : solver) (zs : list Np.float64) (zs64 : list float) :
  highlight_point (data_frame (pressures 1500) zs) 1500 = [] /\
  first_z_factor (highlight_point (data_frame (pressures 1500) zs) 1500)
    = Raise IndexError /\
  B64.highlighted_label 1500 zs64 = B64.Raises IndexError /\
  script fs 0.75 1500 150 0 0 0 = Raise IndexError.
Proof.
  assert (Hnone : highlight_point (data_frame (pressures 1500) zs) 1500 = []).
  { apply highlight_point_none. intros row Hrow.
    apply data_frame_pressure in Hrow. destruct Hrow as (p & Hp & ->).
    now apply no_sample_is_1500. }
  split; [exact Hnone|]. split; [now rewrite Hnone|]. split.
  - unfold B64.highlighted_label. rewrite b64_pressures_1500. cbn [B64.bind].
    now rewrite (b64_highlight_point_none _ _ (b64_no_sample_is_1500 zs64)).
  - unfold script. destruct sutton_at_075 as [-> ->]. cbn [bind].
    run_with (corrected_at_zero 389.7 656.525); [|lra]. cbn [fst snd].
    apply calculate_no_match; try lra;
      [apply reduced_temperature_in_range; lra | apply no_sample_is_1500].
Qed.

Lemma script_outcome_witness :
  (0.55 <= 0.75 <= 1 /\ 14.7 <= 1400 /\ 60 <= 150 /\ 0 <= 0 <= 1) /\
  exists r, script (converged_at 0.5) 0.75 1400 150 0 0 0 = Ok r.
Proof.
  assert (HSG : 0.55 <= 0.75 <= 1) by lra.
  assert (HP : 14.7 <= 1400) by lra.
  assert (HT : 60 <= 150) by lra.
  assert (H0 : 0 <= 0 <= 1) by lra.
  split; [repeat split; lra|].
  apply (proj1 (script_outcome (converged_at 0.5) 0.75 1400 150 0 0 0
                  HSG HP HT H0 H0 H0)).
  right. exists 1400%Z. split; [reflexivity|]. split; [lia | reflexivity].
Defined.

(** ** The table and the label *)

Lemma truediv_inv (a b q : R) : truediv a b = Ok q -> b <> 0 /\ q = a / b.
Proof.
  unfold truediv. destruct (Req_dec_T b 0) as [E|E]; [discriminate|].
  intros H. injection H as <-. now split.
Qed.

Lemma comprehension_rows {A B : Type} (f : A -> result B) (l : list A)
    (bs : list B) :
  comprehension f l = Ok bs ->
  List.length bs = List.length l /\
  forall a b, In (a, b) (combine l bs) -> f a = Ok b.
Proof.
  revert bs. induction l as [|a l IH]; intros bs; simpl.
  - intros H. injection H as <-. split; [reflexivity | intros a b []].
  - destruct (f a) as [b|ex] eqn:Ea; [|discriminate]. cbn [bind].
    destruct (comprehension f l) as [bs'|ex]; [|discriminate]. cbn [bind].
    intros H. injection H as <-.
    destruct (IH bs' eq_refl) as [Hlen Hrows]. split.
    + simpl. now rewrite Hlen.
    + intros a' b' [E|Hin]; [injection E as <- <-; assumption | now apply Hrows].
Qed.

Lemma in_combine_map {A B C : Type} (g : A -> C) (l : list A) (l' : list B)
    (x : C) (z : B) :
  In (x, z) (combine (map g l) l') ->
  exists a, In (a, z) (combine l l') /\ g a = x.
Proof.
  revert l'. induction l as [|a l IH]; intros [|b l']; simpl; try tauto.
  intros [E|Hin].
  - injection E as <- <-. exists a. split; [now left | reflexivity].
  - destruct (IH l' Hin) as (a' & Ha' & <-). exists a'. split; [now right | reflexivity].
Qed.

Lemma map_fst_combine {A B : Type} (l : list A) (l' : list B) :
  List.length l' = List.length l -> map fst (combine l l') = l.
Proof.
  revert l'. induction l as [|a l IH]; intros [|b l'] H; try discriminate.
  - reflexivity.
  - simpl. f_equal. apply IH. simpl in H. lia.
Qed.

(** When the handler comes to its end, what it shows is consistent: the
    table has one row per sample of the sweep, in the order of the sweep;
    the Z-factor of each row is what [Zfac] returns at the pressure of the
    row; the rows selected for the input pressure carry the Z-factor printed
    above the table, and so does the label of the chart. *)
Theorem label_is_displayed_z_factor (fs : solver) (P T Tpc_corr Ppc_corr : R)
    (r : report) :
  calculate fs P T Tpc_corr Ppc_corr = Ok r ->
  map fst (df r) = map to_float (pressures P) /\
  (forall row, In row (df r) ->
     Zfac fs ((T + 459.67) / Tpc_corr) (fst row / Ppc_corr) = Ok (snd row)) /\
  highlighted r <> [] /\
  (forall row, In row (highlighted r) ->
     In row (df r) /\ fst row = P /\ snd row = z_factor r) /\
  label r = z_factor r.
Proof.
  unfold calculate, Pr, Tr.
  destruct (truediv P Ppc_corr) as [pr|ex] eqn:Epr; [|discriminate].
  cbn [bind].
  destruct (truediv (T + 459.67) Tpc_corr) as [tr|ex] eqn:Etr; [|discriminate].
  cbn [bind].
  destruct (Zfac fs tr pr) as [z|ex] eqn:Ez; [|discriminate]. cbn [bind].
  destruct (z_factors fs (T + 459.67) Tpc_corr Ppc_corr (pressures P))
    as [zs|ex] eqn:Ezs; [|discriminate].
  cbn [bind].
  destruct (highlight_point (data_frame (pressures P) zs) P)
    as [|row0 rest] eqn:Ehp; [discriminate|].
  cbn [first_z_factor bind]. intros H. injection H as <-. cbn [df highlighted label z_factor].
  apply truediv_inv in Epr, Etr.
  destruct Epr as [Hpc ->], Etr as [Htc ->].
  apply comprehension_rows in Ezs. destruct Ezs as [Hlen Hrows].
  assert (Htable : forall row, In row (data_frame (pressures P) zs) ->
            Zfac fs ((T + 459.67) / Tpc_corr) (fst row / Ppc_corr)
            = Ok (snd row)).
  { intros [x zx] Hin. apply in_combine_map in Hin.
    destruct Hin as (q & Hq & <-). apply Hrows in Hq. cbv beta in Hq.
    rewrite (truediv_ok _ _ Htc), (truediv_ok _ _ Hpc) in Hq. exact Hq. }
  assert (Hsel : forall row, In row (row0 :: rest) ->
            In row (data_frame (pressures P) zs) /\ fst row = P /\
            snd row = z).
  { intros row Hin. rewrite <- Ehp in Hin. unfold highlight_point in Hin.
    apply filter_In in Hin. destruct Hin as [Hin Heq].
    destruct (Req_dec_T (fst row) P) as [E|E]; [|discriminate].
    split; [assumption|]. split; [assumption|].
    apply Htable in Hin. rewrite E, Ez in Hin. now injection Hin. }
  split; [apply map_fst_combine; now rewrite length_map|].
  split; [assumption|]. split; [discriminate|]. split; [assumption|].
  apply (Hsel row0). now left.
Qed.

Lemma label_is_displayed_z_factor_witness :
  exists r, calculate (converged_at 0.5) 14.7 150 400 650 = Ok r /\
            label r = z_factor r.
Proof.
  destruct (calculate_match (converged_at 0.5) 14.7 150 400 650 (Float 14.7))
    as (r & _ & _ & Hr & _);
    [apply reduced_temperature_in_range; lra | lra | lra | apply sample_floor
     | reflexivity |].
  exists r. split; [exact Hr|].
  exact (proj2 (proj2 (proj2 (proj2
           (label_is_displayed_z_factor (converged_at 0.5) 14.7 150 400 650 r
              Hr))))).
Defined.

(** ** Zeros of the residual *)

(** A zero of [fy] is a safe divisor: for Tpr > 0 and Ppr > 0, when the
    value the root search hands back is a zero of [fy], it is neither 0 nor
    1, and [Zfac] returns a number, alpha Ppr / y, other than 0. *)
Theorem zero_of_fy_gives_a_number (fs : solver) (Tpr Ppr : R) :
  0 < Tpr -> 0 < Ppr ->
  let y := root (fs (fun y => fy y (Spec.alpha Tpr) Ppr (Spec.t Tpr)) 0.001) in
  fy y (Spec.alpha Tpr) Ppr (Spec.t Tpr) = Ok (Some 0) ->
  y <> 0 /\ y <> 1 /\
  exists z, Zfac fs Tpr Ppr = Ok (Some z) /\
            z = Spec.alpha Tpr * Ppr / y /\ z <> 0.
Proof.
  intros HT HP y Hy.
  assert (Ha : 0 < Spec.alpha Tpr) by now apply alpha_positive.
  assert (Ht : 0 < Spec.t Tpr)
    by (unfold Spec.t; apply Rdiv_lt_0_compat; lra).
  assert (Hap : 0 < Spec.alpha Tpr * Ppr) by now apply Rmult_lt_0_compat.
  assert (Hfy : fy_in_range (Spec.t Tpr))
    by (eapply fy_returns_in_range; exact Hy).
  assert (Hr : Zfac_in_range Tpr).
  { split; [lra|]. split; [|exact Hfy]. fold (Spec.t Tpr).
    destruct (Rle_dec (Spec.t Tpr) 2) as [Hle|Hgt].
    - apply (pow_in_range (1 - Spec.t Tpr) 1 2);
        [apply Rabs_le; lra | reflexivity].
    - destruct Hfy as [H2 _].
      rewrite Rabs_pos_eq in H2 by apply pow2_ge_0.
      rewrite Rabs_pos_eq by apply pow2_ge_0. nra. }
  assert (Hy0 : y <> 0).
  { intros E. rewrite E, fy_at_0 in Hy by assumption.
    injection Hy as Hy. lra. }
  assert (Hy1 : y <> 1).
  { intros E. rewrite E, fy_at_1 in Hy by assumption. discriminate. }
  split; [assumption|]. split; [assumption|].
  exists (Spec.alpha Tpr * Ppr / y). split; [|split; [reflexivity|]].
  - rewrite Zfac_value by assumption. fold y. now rewrite np_divide_ok.
  - unfold Rdiv. apply Rmult_integral_contrapositive_currified; [lra|].
    now apply Rinv_neq_0_compat.
Qed.

Lemma zero_of_fy_gives_a_number_witness :
  (0 < 141 / 41 /\ 0 < Ppr_with_root_at (141 / 41) 2) /\
  exists z,
    Zfac (converged_at 2) (141 / 41) (Ppr_with_root_at (141 / 41) 2)
    = Ok (Some z) /\ z <> 0.
Proof.
  assert (HT : 0 < 141 / 41) by lra.
  destruct fy_root_at_2 as [HP Hroot].
  split; [now split|].
  destruct (zero_of_fy_gives_a_number (converged_at 2) (141 / 41)
              (Ppr_with_root_at (141 / 41) 2) HT HP Hroot)
    as (_ & _ & z & Hz & _ & Hz0).
  exists z. now split.
Defined.

(** ** The sign of the correction *)

(** With fractions in [0, 1] and N2 + CO2 within 1, the correction term is
    computed without an error, lies between 0 and 135, and the corrected
    temperature does not exceed the uncorrected one. *)
Theorem correction_lowers_Tpc (Tpc y_H2S_val y_CO2_val y_N2_val : R) :
  0 <= y_H2S_val <= 1 -> 0 <= y_CO2_val -> 0 <= y_N2_val ->
  y_N2_val + y_CO2_val <= 1 ->
  exists ev, e y_H2S_val y_CO2_val y_N2_val = Ok ev /\
             0 <= ev <= 135 /\ Tpc_corr Tpc ev <= Tpc.
Proof.
  intros Hh Hc Hn Hs.
  exists (Spec.e y_H2S_val y_CO2_val y_N2_val).
  split; [apply e_formula; lra|].
  pose proof (e_nonneg y_H2S_val y_CO2_val y_N2_val Hh ltac:(lra)) as H0.
  pose proof (e_bounds y_H2S_val y_CO2_val y_N2_val Hh ltac:(lra) ltac:(lra))
    as [_ H1].
  unfold Tpc_corr. lra.
Qed.

Lemma correction_lowers_Tpc_witness :
  (0 <= 0.1 <= 1 /\ 0 <= 0.6 /\ 0 <= 0 /\ 0 + 0.6 <= 1) /\
  exists ev, e 0.1 0.6 0 = Ok ev /\ 0 <= ev <= 135 /\
             Tpc_corr 389.7 ev <= 389.7.
Proof.
  assert (H1 : 0 <= 0.1 <= 1) by lra.
  assert (H2 : 0 <= 0.6) by lra.
  assert (H3 : 0 <= 0) by lra.
  assert (H4 : 0 + 0.6 <= 1) by lra.
  split; [repeat split; lra|].
  exact (correction_lowers_Tpc 389.7 0.1 0.6 0 H1 H2 H3 H4).
Defined.

(** ** The sweep around the input pressure *)

(** For an input pressure P >= 14.7 every sample lies between 14.7 and
    P + 1000, some sample lies above P + 800, and some sample lies at most
    200 below P: the sweep brackets the input pressure. *)
Theorem sweep_brackets_input (P : R) :
  14.7 <= P ->
  (forall q, In q (pressures P) -> 14.7 <= to_float q <= P + 1000) /\
  (exists q, In q (pressures P) /\ P + 800 < to_float q) /\
  (exists q, In q (pressures P) /\ to_float q <= P < to_float q + 200).
Proof.
  intros HP.
  assert (Hn : int_of_float (P + 1000) = Zfloor (P + 1000))
    by (apply int_of_float_nonneg; lra).
  pose proof (Zfloor_bound (P + 1000)) as [Hlo Hhi].
  assert (Hn1014 : (1014 <= Zfloor (P + 1000))%Z).
  { apply Z.lt_succ_r. apply lt_IZR. 
    replace (IZR (Z.succ (Zfloor (P + 1000)))) with (IZR (Zfloor (P + 1000)) + 1)
      by (rewrite succ_IZR; ring).
    lra. }
  split; [|split].
  - intros q [<-|Hq]; [simpl; lra|].
    apply in_map_iff in Hq. destruct Hq as (z & <- & Hz).
    apply in_range in Hz; [|lia]. rewrite Hn in Hz.
    destruct Hz as [[Hz1 Hz2] _]. simpl.
    assert (H200 : 200 <= IZR z) by (apply (IZR_le 200); assumption).
    assert (Hle : IZR z <= IZR (Zfloor (P + 1000))) by (apply IZR_le; lia).
    lra.
  - set (n := Zfloor (P + 1000)) in *.
    exists (Int (200 * (n / 200))). split.
    + right. apply in_map. apply in_range; [lia|]. rewrite Hn. fold n.
      pose proof (Z.mul_div_le n 200 ltac:(lia)).
      assert (1 <= n / 200)%Z by (apply Z.div_le_lower_bound; lia).
      split; [lia|].
      replace (200 * (n / 200) - 200)%Z with ((n / 200 - 1) * 200)%Z by ring.
      apply Z.mod_mul. lia.
    + cbn [to_float].
      pose proof (Z.mod_pos_bound n 200 ltac:(lia)).
      pose proof (Z.div_mod n 200 ltac:(lia)).
      assert (Hz : (n - 199 <= 200 * (n / 200))%Z) by lia.
      apply IZR_le in Hz. rewrite minus_IZR in Hz. lra.
  - destruct (Rlt_dec P 200) as [Hsmall|Hbig].
    + exists (Float 14.7). split; [now left | simpl; lra].
    + set (m := Zfloor P).
      pose proof (Zfloor_bound P) as [Hm1 Hm2]. fold m in Hm1, Hm2.
      assert (Hm200 : (200 <= m)%Z).
      { apply Z.lt_succ_r. apply lt_IZR. rewrite succ_IZR. lra. }
      assert (Hmn : (m <= Zfloor (P + 1000))%Z).
      { apply Z.lt_succ_r. apply lt_IZR. rewrite succ_IZR. lra. }
      exists (Int (200 * (m / 200))). split.
      * right. apply in_map. apply in_range; [lia|]. rewrite Hn.
        pose proof (Z.mul_div_le m 200 ltac:(lia)).
        assert (1 <= m / 200)%Z by (apply Z.div_le_lower_bound; lia).
        split; [lia|].
        replace (200 * (m / 200) - 200)%Z with ((m / 200 - 1) * 200)%Z by ring.
        apply Z.mod_mul. lia.
      * cbn [to_float].
        pose proof (Z.mod_pos_bound m 200 ltac:(lia)).
        pose proof (Z.div_mod m 200 ltac:(lia)).
        assert (Hz1 : (200 * (m / 200) <= m)%Z) by lia.
        assert (Hz2 : (m - 199 <= 200 * (m / 200))%Z) by lia.
        apply IZR_le in Hz1, Hz2. rewrite minus_IZR in Hz2. lra.
Qed.

Lemma sweep_brackets_input_witness :
  14.7 <= 1500 /\
  exists q, In q (pressures 1500) /\ to_float q <= 1500 < to_float q + 200.
Proof.
  assert (H : 14.7 <= 1500) by lra.
  split; [exact H|].
  exact (proj2 (proj2 (sweep_brackets_input 1500 H))).
Defined.

(** ** A pressure that is not a number *)

(** The check of the pressure keeps a nan and the positive infinity (neither
    is below 14.7), and line 173 then fails on them: [int] raises
    [ValueError] for the nan and [OverflowError] for the infinity. *)
Theorem nan_and_infinity_reach_the_sweep (P : float) :
  (Prim2SF P = S754_nan ->
   pressure_kept P = true /\ B64.pressures P = B64.Raises ValueError) /\
  (Prim2SF P = S754_infinity false ->
   pressure_kept P = true /\ B64.pressures P = B64.Raises OverflowError).
Proof.
  split; intros H.
  - assert (E : P = nan) by (apply Prim2SF_inj; now rewrite H).
    subst P. split; vm_compute; reflexivity.
  - assert (E : P = infinity) by (apply Prim2SF_inj; now rewrite H).
    subst P. split; vm_compute; reflexivity.
Qed.

(** ** The whole script *)

Section PageProperties.
Variable float_of_text : string -> option R.
Variable fsolve : solver.

Lemma nonempty_true (s : string) : nonempty s = true <-> s <> EmptyString.
Proof.
  unfold nonempty. rewrite negb_true_iff. split.
  - intros H ->. now rewrite String.eqb_refl in H.
  - intros H. now apply String.eqb_neq.
Qed.

Lemma nonempty_false (s : string) : nonempty s = false <-> s = EmptyString.
Proof.
  unfold nonempty. rewrite negb_false_iff. apply String.eqb_eq.
Qed.

Lemma between_true (a x b : R) : between a x b = true <-> a <= x <= b.
Proof.
  unfold between. destruct (Rle_dec a x), (Rle_dec x b); split;
    try discriminate; try tauto; intros [? ?]; contradiction.
Qed.

Lemma below_true (x a : R) : below x a = true <-> x < a.
Proof.
  unfold below. destruct (Rlt_dec x a); split;
    try discriminate; tauto.
Qed.

(** What the gravity check leaves in [SG], and what it shows. *)
Lemma gravity_cases (SG : string) :
  (SG = EmptyString /\ gravity float_of_text SG = ([], Returns (Str SG))) \/
  (SG <> EmptyString /\
   exists x, float_of_text SG = Some x /\ 0.55 <= x <= 1.0 /\
             gravity float_of_text SG = ([], Returns (Num x))) \/
  (SG <> EmptyString /\
   (float_of_text SG = None \/
    exists x, float_of_text SG = Some x /\ ~ 0.55 <= x <= 1.0) /\
   exists text, gravity float_of_text SG = ([Error text], Returns NoneValue)).
Proof.
  unfold gravity. destruct (nonempty SG) eqn:E.
  - apply nonempty_true in E. right.
    destruct (float_of_text SG) as [x|] eqn:Ex.
    + destruct (between 0.55 x 1.0) eqn:Eb.
      * left. split; [assumption|]. exists x.
        apply between_true in Eb. now repeat split.
      * right. split; [assumption|]. split.
        -- right. exists x. split; [reflexivity|].
           intros H. apply between_true in H. congruence.
        -- eexists. reflexivity.
    + right. split; [assumption|]. split; [now left|]. eexists. reflexivity.
  - apply nonempty_false in E. left. now split.
Qed.

Lemma pressure_cases (P : string) :
  (P = EmptyString /\ pressure float_of_text P = ([], Returns (Str P))) \/
  (P <> EmptyString /\
   exists x, float_of_text P = Some x /\ 14.7 <= x /\
             pressure float_of_text P = ([], Returns (Num x))) \/
  (P <> EmptyString /\
   (float_of_text P = None \/
    exists x, float_of_text P = Some x /\ x < 14.7) /\
   exists text, pressure float_of_text P = ([Error text], Returns NoneValue)).
Proof.
  unfold pressure. destruct (nonempty P) eqn:E.
  - apply nonempty_true in E. right.
    destruct (float_of_text P) as [x|] eqn:Ex.
    + destruct (below x 14.7) eqn:Eb.
      * right. split; [assumption|]. split.
        -- right. exists x. split; [reflexivity|]. now apply below_true.
        -- eexists. reflexivity.
      * left. split; [assumption|]. exists x.
        split; [reflexivity|]. split; [|reflexivity].
        destruct (Rle_dec 14.7 x) as [H|H]; [assumption|].
        exfalso. assert (Hx : x < 14.7) by lra.
        apply below_true in Hx. congruence.
    + right. split; [assumption|]. split; [now left|]. eexists. reflexivity.
  - apply nonempty_false in E. left. now split.
Qed.

Lemma temperature_cases (T : string) :
  (T = EmptyString /\ temperature float_of_text T = ([], Returns (Str T))) \/
  (T <> EmptyString /\
   exists x, float_of_text T = Some x /\ 60 <= x /\
             temperature float_of_text T = ([], Returns (Num x))) \/
  (T <> EmptyString /\
   (float_of_text T = None \/
    exists x, float_of_text T = Some x /\ x < 60) /\
   exists text, temperature float_of_text T = ([Error text], Returns NoneValue)).
Proof.
  unfold temperature. destruct (nonempty T) eqn:E.
  - apply nonempty_true in E. right.
    destruct (float_of_text T) as [x|] eqn:Ex.
    + destruct (below x 60) eqn:Eb.
      * right. split; [assumption|]. split.
        -- right. exists x. split; [reflexivity|]. now apply below_true.
        -- eexists. reflexivity.
      * left. split; [assumption|]. exists x.
        split; [reflexivity|]. split; [|reflexivity].
        destruct (Rle_dec 60 x) as [H|H]; [assumption|].
        exfalso. assert (Hx : x < 60) by lra.
        apply below_true in Hx. congruence.
    + right. split; [assumption|]. split; [now left|]. eexists. reflexivity.
  - apply nonempty_false in E. left. now split.
Qed.

(** What a fraction check leaves in the value: the number typed when the
    text is a number of [0, 1], and 0 in every other case. *)
Lemma fraction_cases (gas y : string) :
  exists v msgs,
    fraction float_of_text gas y = (msgs, Returns v) /\
    0 <= v <= 1 /\
    counted float_of_text y v /\
    (forall m, In m msgs -> exists text, m = Error text).
Proof.
  unfold fraction, counted, accepted, refused. destruct (nonempty y) eqn:E.
  - apply nonempty_true in E.
    destruct (float_of_text y) as [x|] eqn:Ex.
    + destruct (between 0 x 1) eqn:Eb.
      * apply between_true in Eb. exists x, []. simpl.
        split; [reflexivity|]. split; [assumption|]. split; [now left|].
        intros m [].
      * eexists 0, [_]. simpl. split; [reflexivity|]. split; [lra|].
        split.
        -- right. split; [reflexivity|]. right. split; [assumption|].
           right. exists x. split; [reflexivity|]. intros H.
           apply between_true in H. congruence.
        -- intros m [<-|[]]. eexists. reflexivity.
    + eexists 0, [_]. simpl. split; [reflexivity|]. split; [lra|].
      split; [right; split; [reflexivity|]; right; split; [assumption|];
              now left|].
      intros m [<-|[]]. eexists. reflexivity.
  - apply nonempty_false in E. exists 0, []. simpl.
    split; [reflexivity|]. split; [lra|].
    split; [right; split; [reflexivity|]; now left|].
    intros m [].
Qed.

Lemma then_pair {A B : Type} (msgs : list message) (a : A) (k : A -> ui B) :
  then_ (msgs, Returns a) k = (msgs ++ shown (k a), ending (k a)).
Proof. reflexivity. Qed.

Lemma main_run (i : inputs) (SG P T : value) (h c n : R)
    (m1 m2 m3 m4 m5 m6 : list message) :
  gravity float_of_text (SG_text i) = (m1, Returns SG) ->
  pressure float_of_text (P_text i) = (m2, Returns P) ->
  temperature float_of_text (T_text i) = (m3, Returns T) ->
  fraction float_of_text "H2S" (y_H2S i) = (m4, Returns h) ->
  fraction float_of_text "CO2" (y_CO2 i) = (m5, Returns c) ->
  fraction float_of_text "N2" (y_N2 i) = (m6, Returns n) ->
  (forall m, In m (m1 ++ m2 ++ m3 ++ m4 ++ m5 ++ m6) -> exists t, m = Error t) ->
  exists checks,
    (forall m, In m checks -> check_message m) /\
    In (if below 1 (h + c + n) then ErrorSum (h + c + n)
        else WriteSum (h + c + n)) checks /\
    shown (main float_of_text fsolve i)
      = checks ++ shown (after_checks fsolve i SG P T h c n) /\
    ending (main float_of_text fsolve i)
      = ending (after_checks fsolve i SG P T h c n).
Proof.
  intros E1 E2 E3 E4 E5 E6 M.
  exists ([Write "Calculate Z-factor using Hall-Yarborough method";
           Write "Note: Acceptable Range for Gas Gravity is 0.55 - 1.0"]
          ++ (m1 ++ m2 ++ m3 ++ m4 ++ m5 ++ m6)
          ++ [if below 1 (h + c + n) then ErrorSum (h + c + n)
              else WriteSum (h + c + n)]).
  split; [|split].
  - intros m Hm. unfold check_message. rewrite !in_app_iff in Hm.
    destruct Hm as [Hm|[Hm|Hm]].
    + right; left. destruct Hm as [<-|[<-|[]]]; eexists; reflexivity.
    + left. apply M. now rewrite !in_app_iff.
    + destruct Hm as [<-|[]].
      destruct (below 1 (h + c + n));
        [right; right; left | right; right; right]; eexists; reflexivity.
  - rewrite !in_app_iff. right; right. now left.
  - unfold main. rewrite E1, E2, E3, E4, E5, E6.
    unfold say at 1 2. rewrite !then_pair. cbn [shown ending fst snd].
    unfold mole_fraction_sum.
    assert (Es : (if below 1 (h + c + n) then say (ErrorSum (h + c + n))
                  else say (WriteSum (h + c + n)))
                 = ([if below 1 (h + c + n) then ErrorSum (h + c + n)
                     else WriteSum (h + c + n)], Returns tt))
      by (destruct (below 1 (h + c + n)); reflexivity).
    cbv zeta. rewrite Es. rewrite !then_pair. cbn [shown ending fst snd].
    split; [|reflexivity].
    rewrite <- !app_assoc. reflexivity.
Qed.

Lemma checked_accepted (accepts : R -> Prop) (text : string) (v : value) (x : R) :
  checked float_of_text accepts text v ->
  accepted float_of_text accepts text x -> v = Num x.
Proof.
  intros C (Hne & Ex & Hx). revert C Hne Ex Hx.
  intros [[_ E]|[(_ & _ & Hbad)|(y & -> & _ & Ey & _)]] Hne Ex Hx.
  - contradiction.
  - destruct Hbad as [E|(y & Ey & Hbad)]; [congruence|].
    rewrite Ex in Ey. injection Ey as <-. contradiction.
  - congruence.
Qed.

Lemma checked_empty (accepts : R -> Prop) (text : string) (v : value) :
  checked float_of_text accepts text v -> text = EmptyString -> v = Str EmptyString.
Proof.
  intros [[E _]|[(_ & Hne & _)|(y & _ & Hne & _)]] E0;
    [assumption | contradiction | contradiction].
Qed.

Lemma checked_refused (accepts : R -> Prop) (text : string) (v : value) :
  checked float_of_text accepts text v ->
  refused float_of_text accepts text ->
  v = NoneValue.
Proof.
  intros [[_ E]|[(E & _)|(y & _ & _ & Ey & Hy)]] [Hne Hbad].
  - contradiction.
  - assumption.
  - destruct Hbad as [E|(x & Ex & Hx)]; [congruence|].
    rewrite Ey in Ex. injection Ex as <-. contradiction.
Qed.

(** The six checks raise nothing: every run reaches line 117. *)
Lemma main_reaches_core (i : inputs) :
  exists SG P T h c n checks,
    (forall m, In m checks -> check_message m) /\
    checked float_of_text (fun x => 0.55 <= x <= 1.0) (SG_text i) SG /\
    checked float_of_text (fun x => 14.7 <= x) (P_text i) P /\
    checked float_of_text (fun x => 60 <= x) (T_text i) T /\
    (0 <= h <= 1 /\ 0 <= c <= 1 /\ 0 <= n <= 1) /\
    (counted float_of_text (y_H2S i) h /\ counted float_of_text (y_CO2 i) c /\
     counted float_of_text (y_N2 i) n) /\
    In (if below 1 (h + c + n) then ErrorSum (h + c + n)
        else WriteSum (h + c + n)) checks /\
    shown (main float_of_text fsolve i)
      = checks ++ shown (after_checks fsolve i SG P T h c n) /\
    ending (main float_of_text fsolve i)
      = ending (after_checks fsolve i SG P T h c n).
Proof.
  destruct (fraction_cases "H2S" (y_H2S i))
    as (h & m4 & E4 & Hh & Kh & M4).
  destruct (fraction_cases "CO2" (y_CO2 i))
    as (c & m5 & E5 & Hc & Kc & M5).
  destruct (fraction_cases "N2" (y_N2 i))
    as (n & m6 & E6 & Hn & Kn & M6).
  assert (HG : exists SG m1,
             gravity float_of_text (SG_text i) = (m1, Returns SG) /\
             (forall m, In m m1 -> exists t, m = Error t) /\
             checked float_of_text (fun x => 0.55 <= x <= 1.0) (SG_text i) SG).
  { destruct (gravity_cases (SG_text i))
      as [[E0 E]|[(Hne & x & Ex & Hx & E)|(Hne & Hbad & t & E)]].
    - exists (Str EmptyString), []. rewrite E, E0.
      split; [reflexivity|]. split; [intros m []|]. left. now split.
    - exists (Num x), []. split; [assumption|]. split; [intros m []|].
      right; right. exists x. now repeat split.
    - exists NoneValue, [Error t]. split; [assumption|].
      split; [intros m [<-|[]]; now exists t|]. right; left. now repeat split. }
  assert (HP : exists P m2,
             pressure float_of_text (P_text i) = (m2, Returns P) /\
             (forall m, In m m2 -> exists t, m = Error t) /\
             checked float_of_text (fun x => 14.7 <= x) (P_text i) P).
  { destruct (pressure_cases (P_text i))
      as [[E0 E]|[(Hne & x & Ex & Hx & E)|(Hne & Hbad & t & E)]].
    - exists (Str EmptyString), []. rewrite E, E0.
      split; [reflexivity|]. split; [intros m []|]. left. now split.
    - exists (Num x), []. split; [assumption|]. split; [intros m []|].
      right; right. exists x. now repeat split.
    - exists NoneValue, [Error t]. split; [assumption|].
      split; [intros m [<-|[]]; now exists t|]. right; left.
      split; [reflexivity|]. split; [assumption|].
      destruct Hbad as [Hb|(x & Ex & Hx)]; [now left|].
      right. exists x. split; [assumption | lra]. }
  assert (HT : exists T m3,
             temperature float_of_text (T_text i) = (m3, Returns T) /\
             (forall m, In m m3 -> exists t, m = Error t) /\
             checked float_of_text (fun x => 60 <= x) (T_text i) T).
  { destruct (temperature_cases (T_text i))
      as [[E0 E]|[(Hne & x & Ex & Hx & E)|(Hne & Hbad & t & E)]].
    - exists (Str EmptyString), []. rewrite E, E0.
      split; [reflexivity|]. split; [intros m []|]. left. now split.
    - exists (Num x), []. split; [assumption|]. split; [intros m []|].
      right; right. exists x. now repeat split.
    - exists NoneValue, [Error t]. split; [assumption|].
      split; [intros m [<-|[]]; now exists t|]. right; left.
      split; [reflexivity|]. split; [assumption|].
      destruct Hbad as [Hb|(x & Ex & Hx)]; [now left|].
      right. exists x. split; [assumption | lra]. }
  destruct HG as (SG & m1 & E1 & M1 & CG), HP as (P & m2 & E2 & M2 & CP),
           HT as (T & m3 & E3 & M3 & CT).
  destruct (main_run i SG P T h c n m1 m2 m3 m4 m5 m6 E1 E2 E3 E4 E5 E6)
    as (checks & Hchecks & Hsum & Hshown & Hending).
  { intros m Hm. rewrite !in_app_iff in Hm.
    destruct Hm as [Hm|[Hm|[Hm|[Hm|[Hm|Hm]]]]]; auto. }
  exists SG, P, T, h, c, n, checks. repeat split; try assumption; lra.
Qed.

Lemma pseudo_critical_needs_number (SG : value) (h c n : R) :
  (forall x, SG <> Num x) ->
  pseudo_critical SG h c n = ([], Throws TypeError).
Proof.
  intros H. destruct SG as [s|x|]; try reflexivity. now destruct (H x).
Qed.

(** Lines 119-126 on an accepted gravity and fractions of [0, 1]: nothing
    is raised, and the corrected properties are positive and bounded. *)
Lemma pseudo_critical_accepted (x h c n : R) :
  0.55 <= x <= 1 -> 0 <= h <= 1 -> 0 <= c <= 1 -> 0 <= n <= 1 ->
  exists tc pc,
    pseudo_critical (Num x) h c n = ([], Returns (tc, pc)) /\
    ((exists tpc ppc,
        Tpc x = Ok tpc /\ Ppc x = Ok ppc /\
        corrected tpc ppc h c n = Ok (tc, pc)) /\
     204 <= tc <= 925) /\
    100 <= pc <= 3500.
Proof.
  intros Hx Hh Hc Hn.
  destruct (corrected_positive x h c n Hx Hh Hc Hn)
    as (tpc & ppc & tc & pc & E1 & E2 & E3 & Htc & Hpc).
  exists tc, pc. split; [|split; [split|]]; try assumption.
  - unfold pseudo_critical. rewrite E1, E2. cbn [bind]. now rewrite E3.
  - now exists tpc, ppc.
Qed.

(** What the results branch shows and how it ends, when no divisor is 0. *)
Lemma show_results_run (p t tc pc : R) :
  60 <= t -> 0 < tc <= 925 -> pc <> 0 ->
  exists z zs,
    Zfac fsolve ((t + 459.67) / tc) (p / pc) = Ok z /\
    z_factors fsolve (t + 459.67) tc pc (pressures p) = Ok zs /\
    length zs = length (pressures p) /\
    show_results fsolve (Num p) (Num t) tc pc =
      match highlight_point (data_frame (pressures p) zs) p with
      | [] =>
          ([WriteZ z; Table (data_frame (pressures p) zs)],
           Throws (Raised IndexError))
      | row :: rest =>
          ([WriteZ z; Table (data_frame (pressures p) zs);
            Chart (data_frame (pressures p) zs) (row :: rest) (snd row)],
           Returns tt)
      end.
Proof.
  intros Ht Hbound Hpc.
  assert (Htc : tc <> 0) by lra.
  assert (HT : Zfac_in_range ((t + 459.67) / tc))
    by now apply reduced_temperature_in_range.
  destruct (Zfac_ok fsolve ((t + 459.67) / tc) (p / pc) HT) as [z Hz].
  destruct (z_factors_ok fsolve (t + 459.67) tc pc (pressures p) HT Htc Hpc)
    as (zs & Hzs & Hlen).
  exists z, zs. repeat (split; [assumption|]).
  unfold show_results, Pr, Tr.
  rewrite (truediv_ok p pc Hpc), (truediv_ok (t + 459.67) tc Htc).
  cbn [core]. unfold ret. rewrite !then_pair. cbn [shown ending].
  rewrite Hz. cbn [core]. unfold ret, say. rewrite !then_pair.
  cbn [shown ending fst snd]. rewrite Hzs. cbn [core]. unfold ret.
  rewrite !then_pair. cbn [shown ending fst snd].
  destruct (highlight_point (data_frame (pressures p) zs) p) as [|row rest];
    reflexivity.
Qed.

Lemma show_results_text (P T : value) (tc pc : R) :
  (forall x, P <> Num x) \/ (forall x, T <> Num x) ->
  show_results fsolve P T tc pc = ([], Throws TypeError).
Proof.
  intros H. unfold show_results.
  destruct T as [s|t|]; try reflexivity.
  destruct P as [s|p|]; try reflexivity.
  destruct H as [H|H]; [now destruct (H p) | now destruct (H t)].
Qed.

Lemma then_thrown {A B : Type} (msgs : list message) (e : error)
    (k : A -> ui B) :
  then_ (msgs, Throws e) k = (msgs, Throws e).
Proof. reflexivity. Qed.

Lemma highlight_of_sample (p : R) (zs : list Np.float64) :
  List.length zs = List.length (pressures p) ->
  sample_pressure p ->
  exists row rest,
    highlight_point (data_frame (pressures p) zs) p = row :: rest /\
    fst row = p.
Proof.
  intros Hlen Hs.
  assert (Hin : exists q, In q (pressures p) /\ to_float q = p).
  { destruct Hs as [->|(z & -> & Hz & Hm)].
    - exists (Float 14.7). split; [apply sample_floor | reflexivity].
    - exists (Int z). split; [now apply sample_multiple | reflexivity]. }
  destruct Hin as (q & Hin & Hq).
  destruct (in_combine_exists (map to_float (pressures p)) zs p) as [zP HzP].
  { apply in_map_iff. exists q. now split. }
  { now rewrite length_map. }
  exact (highlight_point_some (data_frame (pressures p) zs) p (p, zP) HzP eq_refl).
Qed.

Lemma highlight_of_other (p : R) (zs : list Np.float64) :
  ~ sample_pressure p ->
  highlight_point (data_frame (pressures p) zs) p = [].
Proof.
  intros Hs. apply highlight_point_none. intros row Hrow.
  apply data_frame_pressure in Hrow. destruct Hrow as (q & Hq & ->).
  apply sample_shape in Hq. intros E. apply Hs.
  destruct Hq as [->|(z & -> & Hz & Hm)].
  - left. now rewrite <- E.
  - right. exists z. now rewrite <- E.
Qed.

Lemma no_warning_among_checks (m : message) (w : string) :
  check_message m -> m <> Warning w.
Proof.
  intros [[t ->]|[[t ->]|[[x ->]|[x ->]]]]; discriminate.
Qed.

Lemma no_warning_among_results (m : message) (w : string) :
  result_message m -> m <> Warning w.
Proof.
  intros [[z ->]|[[t ->]|(t & h & l & ->)]]; discriminate.
Qed.

(** The results branch shows nothing but results. *)
Lemma show_results_messages (P T : value) (tc pc : R) (m : message) :
  In m (shown (show_results fsolve P T tc pc)) -> result_message m.
Proof.
  unfold show_results, result_message.
  destruct T as [s|t|]; try (intros []).
  destruct P as [s|p|]; try (intros []).
  destruct (Pr p pc) as [pr|e1]; [|intros []].
  destruct (Tr (t + 459.67) tc) as [tr|e2]; [|intros []].
  cbn [core]. unfold ret. rewrite !then_pair. cbn [shown ending fst snd app].
  destruct (Zfac fsolve tr pr) as [z|e3]; [|intros []].
  cbn [core]. unfold ret, say. rewrite !then_pair.
  cbn [shown ending fst snd app].
  destruct (z_factors fsolve (t + 459.67) tc pc (pressures p)) as [zs|e4].
  - cbn [core]. unfold ret. rewrite !then_pair. cbn [shown ending fst snd app].
    destruct (first_z_factor _) as [lab|e5]; cbn [core]; unfold ret, throw;
      [rewrite then_pair | rewrite then_thrown];
      cbn [shown ending fst snd app]; intros Hm.
    + destruct Hm as [<-|[<-|[<-|[]]]]; eauto 6.
    + destruct Hm as [<-|[<-|[]]]; eauto 6.
  - cbn [core]. unfold throw. rewrite then_thrown.
    cbn [shown ending fst snd app]. intros [<-|[]]. eauto.
Qed.

Lemma missing_inputs_names (x : R) (P T : value) (h c n : string) :
  incl (missing_inputs (Num x) P T h c n)
       ["Pressure"; "Temperature"; "H2S content"; "CO2 content";
        "N2 content"]%string.
Proof.
  unfold missing_inputs. cbn [is_None app].
  intros name Hin. rewrite !in_app_iff in Hin.
  destruct (is_None P), (is_None T), (nonempty h), (nonempty c), (nonempty n);
    simpl in Hin; simpl; tauto.
Qed.

Lemma checked_none (accepts : R -> Prop) (text : string) (v : value) :
  checked float_of_text accepts text v ->
  (is_None v = true <-> refused float_of_text accepts text).
Proof.
  intros C. split.
  - destruct C as [[-> _]|[[-> H]|(x & -> & _)]]; try discriminate.
    intros _. exact H.
  - intros H. now rewrite (checked_refused _ _ _ C H).
Qed.

(** Without a valid gravity the script stops at line 120, whatever the
    other boxes hold and whether the button is pressed or not. *)
Theorem page_fails_without_gravity (i : inputs) :
  SG_text i = EmptyString \/
  refused float_of_text (fun x => 0.55 <= x <= 1.0) (SG_text i) ->
  ending (main float_of_text fsolve i) = Throws TypeError /\
  forall m, In m (shown (main float_of_text fsolve i)) -> check_message m.
Proof.
  intros H.
  destruct (main_reaches_core i)
    as (SG & P & T & h & c & n & checks & Hchecks & CG & _ & _ & _ & _ & _
        & Hs & He).
  assert (HSG : forall x, SG <> Num x).
  { intros x ->. destruct H as [H|H].
    - pose proof (checked_empty _ _ _ CG H). discriminate.
    - pose proof (checked_refused _ _ _ CG H). discriminate. }
  unfold after_checks in Hs, He.
  rewrite (pseudo_critical_needs_number SG h c n HSG), then_thrown in Hs, He.
  cbn [shown ending fst snd] in Hs, He. rewrite app_nil_r in Hs.
  split; [exact He|]. rewrite Hs. exact Hchecks.
Qed.

(** With a valid gravity and the button not pressed the script comes to its
    end, whatever the five other boxes hold. *)
Theorem page_loads_with_gravity (i : inputs) (x : R) :
  accepted float_of_text (fun x => 0.55 <= x <= 1.0) (SG_text i) x ->
  button i = false ->
  ending (main float_of_text fsolve i) = Returns tt.
Proof.
  intros Hx Hb.
  destruct (main_reaches_core i)
    as (SG & P & T & h & c & n & checks & _ & CG & _ & _ & (Hh & Hc & Hn) & _ & _
        & _ & He).
  rewrite (checked_accepted _ _ _ x CG Hx) in He.
  rewrite He. unfold after_checks.
  destruct Hx as (_ & _ & Hx).
  destruct (pseudo_critical_accepted x h c n) as (tc & pc & -> & _ & _);
    try assumption; try lra.
  rewrite then_pair, Hb. reflexivity.
Qed.

(** The warning of the handler never asks for the gravity: when a warning is
    shown it names some of the five other inputs, and the run comes to its
    end. *)
Theorem warning_never_names_gravity (i : inputs) (w : string) :
  In (Warning w) (shown (main float_of_text fsolve i)) ->
  exists names,
    w = ("Please provide values for: " ++ String.concat ", " names)%string /\
    names <> [] /\
    incl names ["Pressure"; "Temperature"; "H2S content"; "CO2 content";
                "N2 content"]%string /\
    ending (main float_of_text fsolve i) = Returns tt.
Proof.
  intros Hw.
  destruct (main_reaches_core i)
    as (SG & P & T & h & c & n & checks & Hchecks & CG & _ & _ & (Hh & Hc & Hn)
        & _ & _ & Hs & He).
  rewrite Hs in Hw. rewrite He. apply in_app_iff in Hw.
  destruct Hw as [Hw|Hw];
    [now destruct (no_warning_among_checks _ w (Hchecks _ Hw))|].
  unfold after_checks in *.
  destruct SG as [s|x|];
    try (rewrite pseudo_critical_needs_number, then_thrown in Hw
           by (intros; discriminate); now destruct Hw).
  destruct CG as [[E _]|[[E _]|(x' & E & _ & _ & Hx)]]; try discriminate.
  injection E as <-.
  destruct (pseudo_critical_accepted x h c n) as (tc & pc & Epc & _ & _);
    try assumption; try lra.
  rewrite Epc, then_pair in *. cbn [shown ending fst snd app] in *.
  destruct (button i); [|now destruct Hw].
  unfold handler in *.
  pose proof (missing_inputs_names x P T (y_H2S i) (y_CO2 i) (y_N2 i)) as Hincl.
  destruct (missing_inputs (Num x) P T (y_H2S i) (y_CO2 i) (y_N2 i))
    as [|name names] eqn:Em.
  - apply show_results_messages in Hw.
    now destruct (no_warning_among_results _ w Hw).
  - destruct Hw as [Hw|[]]. injection Hw as <-.
    exists (name :: names). repeat split; try assumption. discriminate.
Qed.

Lemma check_is_no_result (m : message) : check_message m -> ~ result_message m.
Proof.
  intros [[t ->]|[[t ->]|[[x ->]|[x ->]]]] [[z E]|[[d E]|(d & h & l & E)]];
    discriminate.
Qed.

(** The state of a run whose gravity was accepted, at the button. *)
Lemma main_with_gravity (i : inputs) (x : R) :
  accepted float_of_text (fun x => 0.55 <= x <= 1.0) (SG_text i) x ->
  button i = true ->
  exists P T h c n tc pc checks,
    (forall m, In m checks -> check_message m) /\
    checked float_of_text (fun x => 14.7 <= x) (P_text i) P /\
    checked float_of_text (fun x => 60 <= x) (T_text i) T /\
    (counted float_of_text (y_H2S i) h /\ counted float_of_text (y_CO2 i) c /\
     counted float_of_text (y_N2 i) n) /\
    In (if below 1 (h + c + n) then ErrorSum (h + c + n)
        else WriteSum (h + c + n)) checks /\
    ((exists tpc ppc,
        Tpc x = Ok tpc /\ Ppc x = Ok ppc /\
        corrected tpc ppc h c n = Ok (tc, pc)) /\
     204 <= tc <= 925) /\
    100 <= pc <= 3500 /\
    shown (main float_of_text fsolve i)
      = checks ++ shown (handler fsolve (Num x) P T (y_H2S i) (y_CO2 i)
                           (y_N2 i) tc pc) /\
    ending (main float_of_text fsolve i)
      = ending (handler fsolve (Num x) P T (y_H2S i) (y_CO2 i) (y_N2 i) tc pc).
Proof.
  intros Hx Hb.
  destruct (main_reaches_core i)
    as (SG & P & T & h & c & n & checks & Hchecks & CG & CP & CT
        & (Hh & Hc & Hn) & K & Hsum & Hs & He).
  rewrite (checked_accepted _ _ _ x CG Hx) in Hs, He.
  destruct Hx as (_ & _ & Hx).
  destruct (pseudo_critical_accepted x h c n) as (tc & pc & Epc & Htc & Hpc);
    try assumption; try lra.
  unfold after_checks in Hs, He. rewrite Epc, then_pair, Hb in Hs, He.
  cbn [shown ending fst snd app] in Hs, He.
  exists P, T, h, c, n, tc, pc, checks.
  split; [assumption|]. split; [assumption|]. split; [assumption|].
  split; [exact K|]. split; [assumption|]. split; [assumption|].
  split; [assumption|]. now split.
Qed.

Lemma missing_inputs_iff (x : R) (P T : value) (h c n name : string) :
  In name (missing_inputs (Num x) P T h c n) <->
  name = "Pressure"%string /\ is_None P = true \/
  name = "Temperature"%string /\ is_None T = true \/
  name = "H2S content"%string /\ h = EmptyString \/
  name = "CO2 content"%string /\ c = EmptyString \/
  name = "N2 content"%string /\ n = EmptyString.
Proof.
  unfold missing_inputs. cbn [is_None app]. rewrite !in_app_iff.
  rewrite <- !nonempty_false.
  destruct (is_None P), (is_None T), (nonempty h), (nonempty c), (nonempty n);
    simpl; intuition (try discriminate; try congruence; auto).
Qed.

Lemma warning_for_empty_box (i : inputs) (x : R) :
  accepted float_of_text (fun x => 0.55 <= x <= 1.0) (SG_text i) x ->
  button i = true ->
  y_N2 i = EmptyString ->
  exists w, In (Warning w) (shown (main float_of_text fsolve i)).
Proof.
  intros Hx Hb Hn.
  destruct (main_with_gravity i x Hx Hb)
    as (P & T & h & c & n & tc & pc & checks & _ & _ & _ & _ & _ & _ & _ & Hs
        & _).
  rewrite Hs. unfold handler.
  destruct (missing_inputs (Num x) P T (y_H2S i) (y_CO2 i) (y_N2 i))
    as [|name names] eqn:Em.
  - exfalso.
    assert (Hin : In "N2 content"%string
                     (missing_inputs (Num x) P T (y_H2S i) (y_CO2 i) (y_N2 i)))
      by (apply missing_inputs_iff; tauto).
    now rewrite Em in Hin.
  - eexists. apply in_app_iff. right. now left.
Qed.

(** With a valid gravity and the button pressed, the warning names exactly
    the pressure and the temperature that a check refused and the fraction
    boxes left empty; when there is such an input the run shows the warning
    and no result, and comes to its end; when there is none it shows no
    warning. *)
Theorem warning_lists_missing_inputs (i : inputs) (x : R) :
  accepted float_of_text (fun x => 0.55 <= x <= 1.0) (SG_text i) x ->
  button i = true ->
  exists names,
    (forall name, In name names <->
       name = "Pressure"%string /\
         refused float_of_text (fun x => 14.7 <= x) (P_text i) \/
       name = "Temperature"%string /\
         refused float_of_text (fun x => 60 <= x) (T_text i) \/
       name = "H2S content"%string /\ y_H2S i = EmptyString \/
       name = "CO2 content"%string /\ y_CO2 i = EmptyString \/
       name = "N2 content"%string /\ y_N2 i = EmptyString) /\
    (names <> [] ->
       In (Warning ("Please provide values for: " ++ String.concat ", " names))
          (shown (main float_of_text fsolve i)) /\
       (forall m, In m (shown (main float_of_text fsolve i)) ->
                  ~ result_message m) /\
       ending (main float_of_text fsolve i) = Returns tt) /\
    (names = [] ->
       forall w, ~ In (Warning w) (shown (main float_of_text fsolve i))).
Proof.
  intros Hx Hb.
  destruct (main_with_gravity i x Hx Hb)
    as (P & T & h & c & n & tc & pc & checks & Hchecks & CP & CT & _ & _ & _
        & _ & Hs & He).
  exists (missing_inputs (Num x) P T (y_H2S i) (y_CO2 i) (y_N2 i)).
  split; [|split].
  - intros name. rewrite missing_inputs_iff.
    rewrite (checked_none _ _ _ CP), (checked_none _ _ _ CT). reflexivity.
  - intros Hne. rewrite Hs, He. unfold handler.
    destruct (missing_inputs (Num x) P T (y_H2S i) (y_CO2 i) (y_N2 i))
      as [|name names]; [contradiction|].
    cbn [say shown ending fst snd]. split; [|split; [|reflexivity]].
    + apply in_app_iff. right. now left.
    + intros m Hm. apply in_app_iff in Hm. destruct Hm as [Hm|[<-|[]]].
      * now apply check_is_no_result, Hchecks.
      * intros [[z E]|[[d E]|(d & hp & l & E)]]; discriminate.
  - intros Hnil w Hw. rewrite Hs in Hw. unfold handler in Hw.
    rewrite Hnil in Hw. apply in_app_iff in Hw. destruct Hw as [Hw|Hw].
    + now destruct (no_warning_among_checks _ w (Hchecks _ Hw)).
    + apply show_results_messages in Hw.
      now destruct (no_warning_among_results _ w Hw).
Qed.

(** An empty pressure or temperature box is not reported: with a valid
    gravity, the button pressed, nothing refused and the three fraction boxes
    filled, the run stops with [TypeError] at line 163 or 166 and shows no
    result. *)
Theorem empty_box_raises (i : inputs) (x : R) :
  accepted float_of_text (fun x => 0.55 <= x <= 1.0) (SG_text i) x ->
  button i = true ->
  ~ refused float_of_text (fun x => 14.7 <= x) (P_text i) ->
  ~ refused float_of_text (fun x => 60 <= x) (T_text i) ->
  y_H2S i <> EmptyString -> y_CO2 i <> EmptyString -> y_N2 i <> EmptyString ->
  P_text i = EmptyString \/ T_text i = EmptyString ->
  ending (main float_of_text fsolve i) = Throws TypeError /\
  forall m, In m (shown (main float_of_text fsolve i)) -> check_message m.
Proof.
  intros Hx Hb HP HT H1 H2 H3 Hempty.
  destruct (main_with_gravity i x Hx Hb)
    as (P & T & h & c & n & tc & pc & checks & Hchecks & CP & CT & _ & _ & _
        & _ & Hs & He).
  assert (Hm : missing_inputs (Num x) P T (y_H2S i) (y_CO2 i) (y_N2 i) = []).
  { destruct (missing_inputs (Num x) P T (y_H2S i) (y_CO2 i) (y_N2 i))
      as [|name names] eqn:Em; [reflexivity|].
    assert (Hin : In name (name :: names)) by now left.
    rewrite <- Em in Hin. apply missing_inputs_iff in Hin.
    rewrite (checked_none _ _ _ CP), (checked_none _ _ _ CT) in Hin.
    tauto. }
  unfold handler in Hs, He. rewrite Hm in Hs, He.
  rewrite show_results_text in Hs, He.
  - cbn [shown ending fst snd] in Hs, He. rewrite app_nil_r in Hs.
    split; [assumption|]. now rewrite Hs.
  - destruct Hempty as [E|E]; [left|right]; intros y ->.
    + pose proof (checked_empty _ _ _ CP E). discriminate.
    + pose proof (checked_empty _ _ _ CT E). discriminate.
  - destruct Hempty as [E|E]; [left|right]; intros y ->.
    + pose proof (checked_empty _ _ _ CP E). discriminate.
    + pose proof (checked_empty _ _ _ CT E). discriminate.
Qed.

(** The state of a run on six accepted texts, at the results branch. *)
Lemma accepted_run (i : inputs) (x p t : R) :
  accepted float_of_text (fun x => 0.55 <= x <= 1.0) (SG_text i) x ->
  accepted float_of_text (fun x => 14.7 <= x) (P_text i) p ->
  accepted float_of_text (fun x => 60 <= x) (T_text i) t ->
  y_H2S i <> EmptyString -> y_CO2 i <> EmptyString -> y_N2 i <> EmptyString ->
  button i = true ->
  exists h c n tc pc checks,
    (forall m, In m checks -> check_message m) /\
    (counted float_of_text (y_H2S i) h /\ counted float_of_text (y_CO2 i) c /\
     counted float_of_text (y_N2 i) n) /\
    In (if below 1 (h + c + n) then ErrorSum (h + c + n)
        else WriteSum (h + c + n)) checks /\
    ((exists tpc ppc,
        Tpc x = Ok tpc /\ Ppc x = Ok ppc /\
        corrected tpc ppc h c n = Ok (tc, pc)) /\
     204 <= tc <= 925) /\
    100 <= pc <= 3500 /\
    shown (main float_of_text fsolve i)
      = checks ++ shown (show_results fsolve (Num p) (Num t) tc pc) /\
    ending (main float_of_text fsolve i)
      = ending (show_results fsolve (Num p) (Num t) tc pc).
Proof.
  intros Hx Hp Ht H1 H2 H3 Hb.
  destruct (main_with_gravity i x Hx Hb)
    as (P & T & h & c & n & tc & pc & checks & Hchecks & CP & CT & K & Hsum
        & Htc & Hpc & Hs & He).
  rewrite (checked_accepted _ _ _ p CP Hp) in Hs, He.
  rewrite (checked_accepted _ _ _ t CT Ht) in Hs, He.
  unfold handler, missing_inputs in Hs, He. cbn [is_None app] in Hs, He.
  apply nonempty_true in H1, H2, H3. rewrite H1, H2, H3 in Hs, He.
  cbn [app] in Hs, He.
  exists h, c, n, tc, pc, checks.
  split; [assumption|]. split; [exact K|]. split; [assumption|].
  split; [assumption|]. split; [assumption|]. now split.
Qed.

(** With six accepted texts and the button pressed, the page shows the
    messages of the checks, then the Z-factor and the table: the Z-factor is
    what [Zfac] returns at the reduced properties of the inputs, computed
    from the corrected properties of lines 119-126, and the table is the
    sweep with what [Zfac] returns at each sample.  The page then draws the
    chart, with the rows of the table at the input pressure and the Z-factor
    of the first of them as label, and comes to its end when the input
    pressure is 14.7 or a multiple of 200 from 200 on; for every other
    pressure it raises [IndexError] with the Z-factor and the table already
    on the page. *)
Theorem results_shown_before_failure (i : inputs) (x p t : R) :
  accepted float_of_text (fun x => 0.55 <= x <= 1.0) (SG_text i) x ->
  accepted float_of_text (fun x => 14.7 <= x) (P_text i) p ->
  accepted float_of_text (fun x => 60 <= x) (T_text i) t ->
  y_H2S i <> EmptyString -> y_CO2 i <> EmptyString -> y_N2 i <> EmptyString ->
  button i = true ->
  exists checks h c n tpc ppc tc pc z zs,
    (forall m, In m checks -> check_message m) /\
    (counted float_of_text (y_H2S i) h /\ counted float_of_text (y_CO2 i) c /\
     counted float_of_text (y_N2 i) n) /\
    Tpc x = Ok tpc /\ Ppc x = Ok ppc /\
    corrected tpc ppc h c n = Ok (tc, pc) /\
    Zfac fsolve ((t + 459.67) / tc) (p / pc) = Ok z /\
    z_factors fsolve (t + 459.67) tc pc (pressures p) = Ok zs /\
    (sample_pressure p ->
     exists row rest,
       highlight_point (data_frame (pressures p) zs) p = row :: rest /\
       fst row = p /\
       shown (main float_of_text fsolve i)
         = checks ++ [WriteZ z; Table (data_frame (pressures p) zs);
                      Chart (data_frame (pressures p) zs) (row :: rest)
                        (snd row)] /\
       ending (main float_of_text fsolve i) = Returns tt) /\
    (~ sample_pressure p ->
     shown (main float_of_text fsolve i)
       = checks ++ [WriteZ z; Table (data_frame (pressures p) zs)] /\
     ending (main float_of_text fsolve i) = Throws (Raised IndexError)).
Proof.
  intros Hx Hp Ht H1 H2 H3 Hb.
  destruct (accepted_run i x p t Hx Hp Ht H1 H2 H3 Hb)
    as (h & c & n & tc & pc & checks & Hchecks & K & _
        & ((tpc & ppc & E1 & E2 & E3) & Htc) & Hpc & Hs & He).
  destruct Ht as (_ & _ & Ht).
  destruct (show_results_run p t tc pc) as (z & zs & Hz & Hzs & Hlen & Hrun);
    try lra.
  rewrite Hrun in Hs, He.
  exists checks, h, c, n, tpc, ppc, tc, pc, z, zs.
  do 7 (split; [assumption|]). split.
  - intros Hsample.
    destruct (highlight_of_sample p zs Hlen Hsample) as (row & rest & Hhp & Hrow).
    rewrite Hhp in Hs, He. exists row, rest. now repeat split.
  - intros Hother. rewrite (highlight_of_other p zs Hother) in Hs, He.
    now split.
Qed.

(** The message about the sum of the fractions is advisory: with six
    accepted texts whose fractions add up to more than 1 and the button
    pressed, the page shows the error about the sum among the messages of
    the checks and, after them, the Z-factor and the table, computed from
    these very fractions by lines 119-126, [Zfac] and the sweep. *)
Theorem sum_check_does_not_stop_the_run (i : inputs) (x p t h c n : R) :
  accepted float_of_text (fun x => 0.55 <= x <= 1.0) (SG_text i) x ->
  accepted float_of_text (fun x => 14.7 <= x) (P_text i) p ->
  accepted float_of_text (fun x => 60 <= x) (T_text i) t ->
  accepted float_of_text (fun x => 0 <= x <= 1) (y_H2S i) h ->
  accepted float_of_text (fun x => 0 <= x <= 1) (y_CO2 i) c ->
  accepted float_of_text (fun x => 0 <= x <= 1) (y_N2 i) n ->
  button i = true ->
  1 < h + c + n ->
  exists checks tpc ppc tc pc z zs rest,
    (forall m, In m checks -> check_message m) /\
    In (ErrorSum (h + c + n)) checks /\
    Tpc x = Ok tpc /\ Ppc x = Ok ppc /\
    corrected tpc ppc h c n = Ok (tc, pc) /\
    Zfac fsolve ((t + 459.67) / tc) (p / pc) = Ok z /\
    z_factors fsolve (t + 459.67) tc pc (pressures p) = Ok zs /\
    shown (main float_of_text fsolve i)
      = checks ++ WriteZ z :: Table (data_frame (pressures p) zs) :: rest.
Proof.
  intros Hx Hp Ht Hh Hc Hn Hb Hsum.
  destruct (accepted_run i x p t Hx Hp Ht) as
    (h' & c' & n' & tc & pc & checks & Hchecks & (Kh & Kc & Kn) & Hmsg
     & ((tpc & ppc & E1 & E2 & E3) & Htc) & Hpc & Hs & He);
    try assumption; try apply Hh; try apply Hc; try apply Hn.
  assert (Eh : h' = h).
  { destruct Hh as (Hne & E & Hr).
    destruct Kh as [(_ & E' & _)|(_ & [E'|(_ & [E'|(y & E' & Hy)])])];
      congruence. }
  assert (Ec : c' = c).
  { destruct Hc as (Hne & E & Hr).
    destruct Kc as [(_ & E' & _)|(_ & [E'|(_ & [E'|(y & E' & Hy)])])];
      congruence. }
  assert (En : n' = n).
  { destruct Hn as (Hne & E & Hr).
    destruct Kn as [(_ & E' & _)|(_ & [E'|(_ & [E'|(y & E' & Hy)])])];
      congruence. }
  subst h' c' n'.
  apply below_true in Hsum. rewrite Hsum in Hmsg.
  destruct Ht as (_ & _ & Ht).
  destruct (show_results_run p t tc pc) as (z & zs & Hz & Hzs & _ & Hrun);
    try lra.
  rewrite Hrun in Hs.
  exists checks, tpc, ppc, tc, pc, z, zs.
  destruct (highlight_point (data_frame (pressures p) zs) p) as [|row more];
    eexists; (do 7 (split; [eassumption|])); exact Hs.
Qed.


End PageProperties.

(** Runs on concrete texts. *)

Ltac accept :=
  unfold accepted; cbn [SG_text P_text T_text y_H2S y_CO2 y_N2];
  split; [discriminate | split; [reflexivity | lra]].

Lemma page_fails_without_gravity_witness :
  ending (main float_of_sample_text (converged_at 0.5)
            {| SG_text := EmptyString; P_text := "1400"; T_text := "150";
               y_H2S := "0.1"; y_CO2 := "0"; y_N2 := "0"; button := true |})
  = Throws TypeError.
Proof.
  apply (page_fails_without_gravity float_of_sample_text (converged_at 0.5)).
  left. reflexivity.
Defined.

Lemma page_loads_with_gravity_witness :
  ending (main float_of_sample_text (converged_at 0.5)
            {| SG_text := "0.75"; P_text := EmptyString; T_text := EmptyString;
               y_H2S := EmptyString; y_CO2 := EmptyString; y_N2 := EmptyString; button := false |})
  = Returns tt.
Proof.
  apply (page_loads_with_gravity float_of_sample_text (converged_at 0.5) _ 0.75).
  - accept.
  - reflexivity.
Defined.

Lemma warning_never_names_gravity_witness :
  exists w,
    In (Warning w)
       (shown (main float_of_sample_text (converged_at 0.5)
                 {| SG_text := "0.75"; P_text := "1400"; T_text := "150";
                    y_H2S := "0.1"; y_CO2 := "0"; y_N2 := EmptyString;
                    button := true |})) /\
    exists names,
      w = ("Please provide values for: " ++ String.concat ", " names)%string /\
      names <> [] /\
      incl names ["Pressure"; "Temperature"; "H2S content"; "CO2 content";
                  "N2 content"]%string /\
      ending (main float_of_sample_text (converged_at 0.5)
                {| SG_text := "0.75"; P_text := "1400"; T_text := "150";
                   y_H2S := "0.1"; y_CO2 := "0"; y_N2 := EmptyString;
                   button := true |}) = Returns tt.
Proof.
  destruct (warning_for_empty_box float_of_sample_text (converged_at 0.5)
              {| SG_text := "0.75"; P_text := "1400"; T_text := "150";
                 y_H2S := "0.1"; y_CO2 := "0"; y_N2 := EmptyString; button := true |}
              0.75) as [w Hw]; [accept | reflexivity | reflexivity |].
  exists w. split; [exact Hw|].
  exact (warning_never_names_gravity float_of_sample_text (converged_at 0.5)
           _ w Hw).
Defined.

Lemma warning_lists_missing_inputs_witness :
  exists names,
    (In "Pressure"%string names /\ In "N2 content"%string names /\
     ~ In "Temperature"%string names) /\
    In (Warning ("Please provide values for: " ++ String.concat ", " names))
       (shown (main float_of_sample_text (converged_at 0.5)
                 {| SG_text := "0.75"; P_text := "2"; T_text := EmptyString;
                    y_H2S := "0.1"; y_CO2 := "abc"; y_N2 := EmptyString;
                    button := true |})).
Proof.
  destruct (warning_lists_missing_inputs float_of_sample_text
              (converged_at 0.5)
              {| SG_text := "0.75"; P_text := "2"; T_text := EmptyString;
                 y_H2S := "0.1"; y_CO2 := "abc"; y_N2 := EmptyString; button := true |}
              0.75) as (names & Hnames & Hshown & _);
    [accept | reflexivity |].
  cbn [P_text T_text y_H2S y_CO2 y_N2] in Hnames.
  assert (HP : In "Pressure"%string names).
  { apply Hnames. left. split; [reflexivity|]. split; [discriminate|].
    right. exists 2. split; [reflexivity | lra]. }
  assert (HN : In "N2 content"%string names).
  { apply Hnames. do 4 right. now split. }
  assert (HT : ~ In "Temperature"%string names).
  { intros H. apply Hnames in H.
    destruct H as [[H _]|[[_ [H _]]|[[H _]|[[H _]|[H _]]]]];
      try discriminate H. now apply H. }
  exists names. split; [now repeat split|].
  apply Hshown. intros E. now rewrite E in HP.
Defined.

Lemma empty_box_raises_witness :
  ending (main float_of_sample_text (converged_at 0.5)
            {| SG_text := "0.75"; P_text := EmptyString; T_text := "150";
               y_H2S := "0.1"; y_CO2 := "0"; y_N2 := "0"; button := true |})
  = Throws TypeError.
Proof.
  apply (empty_box_raises float_of_sample_text (converged_at 0.5) _ 0.75).
  - accept.
  - reflexivity.
  - intros [H _]. now apply H.
  - intros [_ [H|(y & H & Hy)]]; [discriminate H|].
    cbn [T_text] in H. injection H as <-. lra.
  - discriminate.
  - discriminate.
  - discriminate.
  - left. reflexivity.
Defined.

Lemma results_shown_before_failure_witness :
  exists checks tc pc z zs,
    Zfac (converged_at 0.5) ((150 + 459.67) / tc) (1500 / pc) = Ok z /\
    z_factors (converged_at 0.5) (150 + 459.67) tc pc (pressures 1500)
      = Ok zs /\
    shown (main float_of_sample_text (converged_at 0.5)
             {| SG_text := "0.75"; P_text := "1500"; T_text := "150";
                y_H2S := "0.1"; y_CO2 := "0"; y_N2 := "0"; button := true |})
    = checks ++ [WriteZ z; Table (data_frame (pressures 1500) zs)] /\
    ending (main float_of_sample_text (converged_at 0.5)
              {| SG_text := "0.75"; P_text := "1500"; T_text := "150";
                 y_H2S := "0.1"; y_CO2 := "0"; y_N2 := "0"; button := true |})
    = Throws (Raised IndexError).
Proof.
  destruct (results_shown_before_failure float_of_sample_text
              (converged_at 0.5)
              {| SG_text := "0.75"; P_text := "1500"; T_text := "150";
                 y_H2S := "0.1"; y_CO2 := "0"; y_N2 := "0"; button := true |}
              0.75 1500 150)
    as (checks & h & c & n & tpc & ppc & tc & pc & z & zs & _ & _ & _ & _ & _
        & Hz & Hzs & _ & Hother);
    [accept | accept | accept | discriminate | discriminate | discriminate
     | reflexivity |].
  exists checks, tc, pc, z, zs.
  split; [exact Hz|]. split; [exact Hzs|]. apply Hother.
  intros [H|(k & H & _ & Hk)]; [lra|].
  apply (eq_IZR 1500 k) in H. subst k. discriminate Hk.
Defined.

Lemma sum_check_does_not_stop_the_run_witness :
  1 < 0.6 + 0.6 + 0 /\
  exists checks tpc ppc tc pc z zs rest,
    (forall m, In m checks -> check_message m) /\
    In (ErrorSum (0.6 + 0.6 + 0)) checks /\
    Tpc 0.75 = Ok tpc /\ Ppc 0.75 = Ok ppc /\
    corrected tpc ppc 0.6 0.6 0 = Ok (tc, pc) /\
    Zfac (converged_at 0.5) ((150 + 459.67) / tc) (1400 / pc) = Ok z /\
    z_factors (converged_at 0.5) (150 + 459.67) tc pc (pressures 1400)
      = Ok zs /\
    shown (main float_of_sample_text (converged_at 0.5)
             {| SG_text := "0.75"; P_text := "1400"; T_text := "150";
                y_H2S := "0.6"; y_CO2 := "0.6"; y_N2 := "0";
                button := true |})
    = checks ++ WriteZ z :: Table (data_frame (pressures 1400) zs) :: rest.
Proof.
  assert (Hsum : 1 < 0.6 + 0.6 + 0) by lra.
  split; [exact Hsum|].
  apply (sum_check_does_not_stop_the_run float_of_sample_text
           (converged_at 0.5)
           {| SG_text := "0.75"; P_text := "1400"; T_text := "150";
              y_H2S := "0.6"; y_CO2 := "0.6"; y_N2 := "0"; button := true |}
           0.75 1400 150 0.6 0.6 0);
    [accept | accept | accept | accept | accept | accept | reflexivity
     | exact Hsum].
Defined.
